(** * TWAP calculator: a shallow embedding of [twap_calculator.js] and
      [twap-cli.js], and the properties of the specification checked on it.

    JavaScript numbers are IEEE-754 binary64 values; they are embedded as
    Rocq's primitive floats, whose operations are specified by
    [Stdlib.Floats].  Arrays are mutable objects held by reference: the
    embedding threads a store of arrays through [calculateTWAP], so that
    [filter] (fresh array) and [sort] (in place) keep their aliasing
    behaviour.  [Math.pow] is only required by ECMAScript to return an
    implementation-approximated value, so it is a parameter of the engine. *)

From Stdlib Require Import ZArith List String Ascii Bool Lia.
From Stdlib Require Import Permutation Sorted DecimalString.
From Stdlib Require Import Floats.
Import ListNotations.

Set Warnings "-inexact-float,-register-all".
Local Open Scope float_scope.

(* ================================================================== *)
(** * The JavaScript runtime used by the program *)
(* ================================================================== *)

Module JS.

(** ** Numbers *)

Definition number := float.

(** The Number value of a mathematical integer: round to nearest, ties to
    even (what [parseInt] and the conversion of [length] do). *)
Definition ofZ (z : Z) : number :=
  SF2Prim (binary_normalize prec emax z 0 false).

Definition ofNat (n : nat) : number := ofZ (Z.of_nat n).

(** [x > y] *)
Definition gtb (x y : number) : bool := y <? x.

Definition isNaN (x : number) : bool := negb (x =? x).

(** [-0] is told from [+0] by the sign of its reciprocal. *)
Definition isNegZero (x : number) : bool := (x =? 0) && (1 / x <? 0).

(** [Math.max(a, b)] and [Math.min(a, b)]: NaN is contagious and [+0] is
    larger than [-0]. *)
Definition max2 (a b : number) : number :=
  if isNaN a || isNaN b then nan
  else if a <? b then b
  else if b <? a then a
  else if isNegZero a then b else a.

Definition min2 (a b : number) : number :=
  if isNaN a || isNaN b then nan
  else if a <? b then a
  else if b <? a then b
  else if isNegZero a then a else b.

(** [Math.max(...xs)] and [Math.min(...xs)]; on no argument they are
    [-Infinity] and [+Infinity]. *)
Definition Math_max (xs : list number) : number := fold_left max2 xs neg_infinity.
Definition Math_min (xs : list number) : number := fold_left min2 xs infinity.

Definition Math_abs (x : number) : number := abs x.

(** [Math.round]: the nearest integer, ties towards [+Infinity]; the sign
    of a zero result is the sign of the argument. *)
Definition Math_round (x : number) : number :=
  match Prim2SF x with
  | S754_finite s m e =>
      if (0 <=? e)%Z then x
      else
        let sm := if s then Z.neg m else Z.pos m in
        let n := ((2 * sm + 2 ^ (- e)) / 2 ^ (1 - e))%Z in
        if (n =? 0)%Z then (if s then (-0) else 0) else ofZ n
  | _ => x
  end.

(** [SameValueZero], the equality of [Set]: NaN equals NaN, [+0] equals
    [-0]. *)
Definition SameValueZero (x y : number) : bool :=
  (isNaN x && isNaN y) || (x =? y).

(** A [Set] of numbers in insertion order. *)
Definition Set_add (s : list number) (x : number) : list number :=
  if existsb (SameValueZero x) s then s else s ++ [x].

Definition Set_size (s : list number) : number := ofNat (List.length s).

(** ** [parseInt] on a string, radix absent *)

(** The white space and the line terminators that [parseInt] skips.  A
    string is the sequence of its UTF-8 bytes: the characters below
    U+0080 are one byte, U+00A0 is two bytes, and U+1680, U+2000 to
    U+200A, U+2028, U+2029, U+202F, U+205F, U+3000 and U+FEFF are three. *)
Definition isWhiteSpace (c : ascii) : bool :=
  let n := nat_of_ascii c in
  ((9 <=? n) && (n <=? 13))%nat || (n =? 32)%nat.

Definition isWhiteSpace2 (c1 c2 : ascii) : bool :=
  ((nat_of_ascii c1 =? 194) && (nat_of_ascii c2 =? 160))%nat.

Definition isWhiteSpace3 (c1 c2 c3 : ascii) : bool :=
  let '(n1, n2, n3) := (nat_of_ascii c1, nat_of_ascii c2, nat_of_ascii c3) in
  ((n1 =? 225) && (n2 =? 154) && (n3 =? 128)
   || (n1 =? 226) && (n2 =? 128)
      && ((128 <=? n3) && (n3 <=? 138) || (n3 =? 168) || (n3 =? 169) || (n3 =? 175))
   || (n1 =? 226) && (n2 =? 129) && (n3 =? 159)
   || (n1 =? 227) && (n2 =? 128) && (n3 =? 128)
   || (n1 =? 239) && (n2 =? 187) && (n3 =? 191))%nat.

Fixpoint trimStart (s : string) : string :=
  match s with
  | String c1 s1 =>
      if isWhiteSpace c1 then trimStart s1
      else
        match s1 with
        | String c2 s2 =>
            if isWhiteSpace2 c1 c2 then trimStart s2
            else
              match s2 with
              | String c3 s3 => if isWhiteSpace3 c1 c2 c3 then trimStart s3 else s
              | EmptyString => s
              end
        | EmptyString => s
        end
  | EmptyString => s
  end.

Definition digitVal (c : ascii) : option Z :=
  let n := Z.of_nat (nat_of_ascii c) in
  if ((48 <=? n) && (n <=? 57))%Z then Some (n - 48)%Z
  else if ((97 <=? n) && (n <=? 122))%Z then Some (n - 87)%Z
  else if ((65 <=? n) && (n <=? 90))%Z then Some (n - 55)%Z
  else None.

(** The value of the longest prefix of radix-[R] digits; [None] when that
    prefix is empty. *)
Fixpoint digitsPrefix (R : Z) (s : string) (acc : option Z) : option Z :=
  match s with
  | String c s' =>
      match digitVal c with
      | Some d =>
          if (d <? R)%Z
          then digitsPrefix R s' (Some (R * match acc with Some a => a | None => 0 end + d)%Z)
          else acc
      | None => acc
      end
  | EmptyString => acc
  end.

Definition stripSign (s : string) : bool * string :=
  match s with
  | String "-"%char s' => (true, s')
  | String "+"%char s' => (false, s')
  | _ => (false, s)
  end.

Definition stripRadixPrefix (s : string) : Z * string :=
  match s with
  | String "0"%char (String "x"%char s') => (16%Z, s')
  | String "0"%char (String "X"%char s') => (16%Z, s')
  | _ => (10%Z, s)
  end.

(** The mathematical integer that [parseInt(s)] reads, as sign and
    magnitude, before its conversion to a Number; [None] when [s] has no
    digit to read. *)
Definition parseIntExact (s : string) : option (bool * Z) :=
  let '(neg, s1) := stripSign (trimStart s) in
  let '(R, s2) := stripRadixPrefix s1 in
  match digitsPrefix R s2 None with
  | None => None
  | Some z => Some (neg, z)
  end.

(** [parseInt(s)].  For radix 10 an implementation may approximate after
    the 20th significant digit; the model rounds the exact integer, which
    is what every engine does up to 20 digits (an i64 has at most 19). *)
Definition parseInt (s : string) : number :=
  match parseIntExact s with
  | None => nan
  | Some (neg, 0%Z) => if neg then (-0) else 0
  | Some (neg, z) => ofZ (if neg then - z else z)
  end.

(** ** Exceptions and the store of arrays *)

Inductive Exception :=
  | TypeError (message : string)
  | Error (message : string).

Inductive Completion (A : Type) :=
  | Normal (a : A)
  | Throw (e : Exception).
Arguments Normal {A} a.
Arguments Throw {A} e.

Section Store.
(** The element type of the arrays in the store. *)
Variable E : Type.

(** An array reference is an index into the store. *)
Definition ref := nat.
Definition Heap := list (list E).

Definition M (A : Type) := Heap -> Completion A * Heap.

Definition ret {A} (a : A) : M A := fun h => (Normal a, h).
Definition throw {A} (e : Exception) : M A := fun h => (Throw e, h).
Definition bind {A B} (m : M A) (k : A -> M B) : M B :=
  fun h => match m h with
           | (Normal a, h') => k a h'
           | (Throw e, h') => (Throw e, h')
           end.

Definition notAnArray : Exception := TypeError "not an array".

(** [a.filter(p)]: a fresh array, allocated at the end of the store. *)
Definition Array_filter (p : E -> bool) (a : ref) : M ref :=
  fun h => match nth_error h a with
           | Some xs => (Normal (List.length h), h ++ [filter p xs])
           | None => (Throw notAnArray, h)
           end.

(** Insertion of [x] in front of the first element that does not sort
    strictly before it. *)
Fixpoint sortInsert (cmp : E -> E -> number) (x : E) (l : list E) : list E :=
  match l with
  | [] => [x]
  | y :: l' => if cmp y x <? 0 then y :: sortInsert cmp x l' else x :: l
  end.

(** The stable sort by a comparison function ([v < 0]: first argument
    first; a NaN result counts as [+0]).  ECMAScript fixes the result
    of [sort] to this one whenever the comparison function is
    consistent on the elements. *)
Definition stableSort (cmp : E -> E -> number) (l : list E) : list E :=
  fold_right (sortInsert cmp) [] l.

Fixpoint update (h : Heap) (a : ref) (xs : list E) : Heap :=
  match h, a with
  | [], _ => []
  | _ :: h', O => xs :: h'
  | ys :: h', S a' => ys :: update h' a' xs
  end.

(** [a.sort(cmp)]: sorts the array [a] itself and returns it. *)
Definition Array_sort (cmp : E -> E -> number) (a : ref) : M ref :=
  fun h => match nth_error h a with
           | Some xs => (Normal a, update h a (stableSort cmp xs))
           | None => (Throw notAnArray, h)
           end.

Definition Array_length (a : ref) : M nat :=
  fun h => match nth_error h a with
           | Some xs => (Normal (List.length xs), h)
           | None => (Throw notAnArray, h)
           end.

(** [a[i]]: [None] stands for [undefined]. *)
Definition Array_get (a : ref) (i : Z) : M (option E) :=
  fun h => match nth_error h a with
           | Some xs => (Normal (if (i <? 0)%Z then None else nth_error xs (Z.to_nat i)), h)
           | None => (Throw notAnArray, h)
           end.

(** The elements of [a], for a callee that only reads the array. *)
Definition Array_elements (a : ref) : M (list E) :=
  fun h => match nth_error h a with
           | Some xs => (Normal xs, h)
           | None => (Throw notAnArray, h)
           end.

(** [o.field]: reading a property of [undefined] throws a TypeError (the
    text of its message is the engine's). *)
Definition prop {A} (o : option E) (field : E -> A) : M A :=
  match o with
  | Some x => ret (field x)
  | None => throw (TypeError "Cannot read properties of undefined")
  end.

(** [console.log]: the interpolated values are computed (which may
    throw); the text written to the terminal is not modelled. *)
Definition console_log (values : list number) : M unit := ret tt.
End Store.

Arguments ret {E A} a.
Arguments throw {E A} e.
Arguments bind {E A B} m k.
Arguments Array_filter {E} p a.
Arguments Array_sort {E} cmp a.
Arguments Array_length {E} a.
Arguments Array_get {E} a i.
Arguments Array_elements {E} a.
Arguments prop {E A} o field.
Arguments console_log {E} values.
Arguments stableSort {E} cmp l.
Arguments sortInsert {E} cmp x l.
Arguments update {E} h a xs.

End JS.

Import JS.

Notation "x <- m ;; k" := (bind m (fun x => k))
  (at level 61, m at next level, right associativity).
Notation "m ;;; k" := (bind m (fun _ => k))
  (at level 61, right associativity).

(* ================================================================== *)
(** * Data model *)
(* ================================================================== *)

(** An element of [observationState.observations.data].  A record whose
    [block_timestamp] is missing reads [undefined] there, which every use
    in the program converts to NaN; such a record is one with a NaN
    timestamp. *)
Record Observation := {
  block_timestamp : number;
  tick_cumulative : string
}.

(** The fields of [poolState] the engine reads ([.data] of each). *)
Record PoolState := {
  tick_current : number;
  mint_decimals_0 : number;
  mint_decimals_1 : number
}.

(** [observationState.observations.data] is an array held by reference. *)
Record ObservationState := {
  observations_data : ref
}.

Inductive RiskLevel := LOW | MEDIUM | HIGH | CRITICAL.

Inductive Factor :=
  | EXTREME_PRICE_DIFF
  | HIGH_PRICE_DIFF
  | MODERATE_PRICE_DIFF
  | RAPID_PRICE_CHANGE
  | TICK_SPIKE
  | INSUFFICIENT_DATA
  | REPETITIVE_PATTERNS
  | NORMAL_MOVEMENT.

Definition RiskLevel_eqb (a b : RiskLevel) : bool :=
  match a, b with
  | LOW, LOW | MEDIUM, MEDIUM | HIGH, HIGH | CRITICAL, CRITICAL => true
  | _, _ => false
  end.

Definition Factor_eqb (a b : Factor) : bool :=
  match a, b with
  | EXTREME_PRICE_DIFF, EXTREME_PRICE_DIFF
  | HIGH_PRICE_DIFF, HIGH_PRICE_DIFF
  | MODERATE_PRICE_DIFF, MODERATE_PRICE_DIFF
  | RAPID_PRICE_CHANGE, RAPID_PRICE_CHANGE
  | TICK_SPIKE, TICK_SPIKE
  | INSUFFICIENT_DATA, INSUFFICIENT_DATA
  | REPETITIVE_PATTERNS, REPETITIVE_PATTERNS
  | NORMAL_MOVEMENT, NORMAL_MOVEMENT => true
  | _, _ => false
  end.

(** [factors.includes(f)] *)
Definition includes (factors : list Factor) (f : Factor) : bool :=
  existsb (Factor_eqb f) factors.

(** The order in which [level] can only rise. *)
Definition levelRank (l : RiskLevel) : nat :=
  match l with LOW => 0 | MEDIUM => 1 | HIGH => 2 | CRITICAL => 3 end.

Record RiskReport := {
  level : RiskLevel;
  factors : list Factor;
  warning : option string;
  confidence : number;
  recommendations : list string
}.

Record TwapResult := {
  twapTick : number;
  twapPrice : number;
  currentPrice : number;
  timePeriodHours : number;
  observationCount : nat;
  priceDifferencePercent : number;
  manipulationAnalysis : RiskReport
}.

(* ================================================================== *)
(** * The manipulation scorer ([twap_calculator.js], lines 4-126) *)
(* ================================================================== *)

(** [warning || message]: a [null] or empty warning is replaced. *)
Definition orElse (warning : option string) (message : string) : option string :=
  match warning with
  | Some EmptyString | None => Some message
  | Some w => Some w
  end.

(** The pairs [(observations[i-1], observations[i])] for [i] from 1 to
    [length - 1], in the order the loops visit them. *)
Fixpoint consecutive {A} (l : list A) : list (A * A) :=
  match l with
  | a :: (b :: _) as t => (a, b) :: consecutive t
  | _ => []
  end.

Definition calculateConfidence (factors : list Factor) (timePeriodHours : number) : number :=
  let confidence := 50 in
  let confidence := if gtb timePeriodHours 1 then confidence + 20 else confidence in
  let confidence := if gtb timePeriodHours 6 then confidence + 15 else confidence in
  let confidence := if includes factors NORMAL_MOVEMENT then confidence + 15 else confidence in
  let confidence := if includes factors EXTREME_PRICE_DIFF then confidence + 25 else confidence in
  let confidence := if includes factors INSUFFICIENT_DATA then confidence - 30 else confidence in
  min2 (max2 confidence 0) 100.

Definition getRecommendations (riskLevel : RiskLevel) (factors : list Factor) : list string :=
  let recommendations :=
    match riskLevel with
    | CRITICAL =>
        [ "🚨 DO NOT TRADE - High manipulation risk";
          "📊 Wait for market stabilization";
          "🔍 Investigate recent transactions" ]
    | HIGH =>
        [ "⚠️ Trade with extreme caution";
          "📈 Use smaller position sizes";
          "⏰ Wait for longer observation period" ]
    | MEDIUM =>
        [ "⚡ Consider market volatility";
          "📊 Cross-check with other indicators" ]
    | LOW =>
        [ "✅ Normal market conditions";
          "📈 Safe to trade with normal risk management" ]
    end%string in
  if includes factors INSUFFICIENT_DATA
  then recommendations ++ [ "⏱️ Collect more historical data"%string ]
  else recommendations.

(** The loop of factor 3: the tick velocity of every consecutive pair
    with a positive time difference. *)
Definition tickMovementsOf (observations : list Observation) : list number :=
  fold_left
    (fun tickMovements '(prev, cur) =>
       let timeDiff := cur.(block_timestamp) - prev.(block_timestamp) in
       let tickDiff := parseInt cur.(tick_cumulative) - parseInt prev.(tick_cumulative) in
       if gtb timeDiff 0 then tickMovements ++ [tickDiff / timeDiff] else tickMovements)
    (consecutive observations) [].

(** The loop of factor 5: the set of rounded inter-observation deltas. *)
Definition uniqueRatiosOf (observations : list Observation) : list number :=
  let tickCumulatives := map (fun obs => parseInt obs.(tick_cumulative)) observations in
  fold_left
    (fun uniqueRatios '(prev, cur) =>
       let ratio := Math_round ((cur - prev) * 1000) in
       Set_add uniqueRatios ratio)
    (consecutive tickCumulatives) [].

Definition detectManipulation (priceDiffPercent timePeriodHours : number)
    (observations : list Observation) : RiskReport :=
  let factors := [] in
  let riskLevel := LOW in
  let warning := None in
  (* Factor 1: extreme price difference *)
  let '(factors, riskLevel, warning) :=
    if gtb priceDiffPercent 50 then
      (factors ++ [EXTREME_PRICE_DIFF], CRITICAL,
       Some "Extreme price difference detected! Possible pump/dump or flash loan attack"%string)
    else if gtb priceDiffPercent 30 then
      (factors ++ [HIGH_PRICE_DIFF], HIGH,
       Some "Very high price difference - investigate for manipulation"%string)
    else if gtb priceDiffPercent 15 then
      (factors ++ [MODERATE_PRICE_DIFF], MEDIUM, warning)
    else (factors, riskLevel, warning) in
  (* Factor 2: short time period with big changes *)
  let '(factors, riskLevel, warning) :=
    if (timePeriodHours <? 1) && gtb priceDiffPercent 20 then
      (factors ++ [RAPID_PRICE_CHANGE],
       (if RiskLevel_eqb riskLevel LOW then HIGH else riskLevel),
       orElse warning "Rapid price change in short timeframe - possible manipulation")
    else (factors, riskLevel, warning) in
  (* Factor 3: analysis of the tick movements pattern *)
  let tickMovements := tickMovementsOf observations in
  let avgTickMovement :=
    fold_left (fun a b => a + b) tickMovements 0 / ofNat (List.length tickMovements) in
  let maxMovement := Math_max (map Math_abs tickMovements) in
  let minMovement := Math_min (map Math_abs tickMovements) in
  let '(factors, riskLevel) :=
    if gtb maxMovement (Math_abs avgTickMovement * 10) then
      (factors ++ [TICK_SPIKE],
       (if RiskLevel_eqb riskLevel LOW || RiskLevel_eqb riskLevel MEDIUM then HIGH else riskLevel))
    else (factors, riskLevel) in
  (* Factor 4: very short observation window *)
  let '(factors, warning) :=
    if timePeriodHours <? 0.1 then
      (factors ++ [INSUFFICIENT_DATA],
       orElse warning "Very short observation period - results may not be reliable")
    else (factors, warning) in
  (* Factor 5: wash trading indicators *)
  let uniqueRatios := uniqueRatiosOf observations in
  let '(factors, riskLevel) :=
    if Set_size uniqueRatios <? ofNat (List.length observations) * 0.3 then
      (factors ++ [REPETITIVE_PATTERNS],
       (if RiskLevel_eqb riskLevel LOW then MEDIUM else riskLevel))
    else (factors, riskLevel) in
  (* No factors found = legitimate movement *)
  let factors := if (List.length factors =? 0)%nat then factors ++ [NORMAL_MOVEMENT] else factors in
  {| level := riskLevel;
     factors := factors;
     warning := warning;
     confidence := calculateConfidence factors timePeriodHours;
     recommendations := getRecommendations riskLevel factors |}.

(* ================================================================== *)
(** * The TWAP engine ([twap_calculator.js], lines 128-207, and its copy
      [calculateTWAPCLI] in [twap-cli.js], lines 207-285) *)
(* ================================================================== *)

Section Engine.

(** [Math.pow] of the host. *)
Variable Math_pow : number -> number -> number.

Definition insufficientData : Exception :=
  Error "Need at least 2 observations to calculate TWAP".

Definition calculateTWAP (poolState : PoolState) (observationState : ObservationState)
    : M Observation TwapResult :=
  let observations := observationState.(observations_data) in
  let currentTick := poolState.(tick_current) in
  (* Filter out observations with timestamp 0 (empty slots) *)
  validObservations <-
    Array_filter (fun obs => gtb obs.(block_timestamp) 0) observations ;;
  (* Sort observations by timestamp *)
  Array_sort (fun a b => a.(block_timestamp) - b.(block_timestamp)) validObservations ;;;
  length <- Array_length validObservations ;;
  console_log [ofNat length] ;;;
  first <- Array_get validObservations 0 ;;
  firstTimestamp <- prop first block_timestamp ;;
  last <- Array_get validObservations (Z.of_nat length - 1) ;;
  lastTimestamp <- prop last block_timestamp ;;
  console_log [firstTimestamp; lastTimestamp] ;;;
  if (length <? 2)%nat then throw insufficientData else
  (* Calculate TWAP using tick cumulative values *)
  oldestObs <- Array_get validObservations 0 ;;
  newestObs <- Array_get validObservations (Z.of_nat length - 1) ;;
  newestTimestamp <- prop newestObs block_timestamp ;;
  oldestTimestamp <- prop oldestObs block_timestamp ;;
  let timeDiff := newestTimestamp - oldestTimestamp in
  newestCumulative <- prop newestObs tick_cumulative ;;
  oldestCumulative <- prop oldestObs tick_cumulative ;;
  let tickCumulativeDiff := parseInt newestCumulative - parseInt oldestCumulative in
  let twapTick := tickCumulativeDiff / timeDiff in
  console_log [timeDiff; timeDiff / 3600; tickCumulativeDiff; twapTick] ;;;
  (* Convert tick to price *)
  let price := Math_pow 1.0001 twapTick in
  (* Adjust for decimal differences *)
  let decimals0 := poolState.(mint_decimals_0) in
  let decimals1 := poolState.(mint_decimals_1) in
  let decimalAdjustment := Math_pow 10 (decimals1 - decimals0) in
  let adjustedPrice := price * decimalAdjustment in
  console_log [twapTick; price; decimalAdjustment; decimals0; decimals1; adjustedPrice] ;;;
  (* Current price for comparison *)
  let currentPrice := Math_pow 1.0001 currentTick * decimalAdjustment in
  console_log [currentPrice; (adjustedPrice - currentPrice) / currentPrice * 100] ;;;
  (* Manipulation detection *)
  let priceDiffPercent := Math_abs ((adjustedPrice - currentPrice) / currentPrice * 100) in
  elements <- Array_elements validObservations ;;
  let manipulationRisk := detectManipulation priceDiffPercent (timeDiff / 3600) elements in
  console_log [priceDiffPercent; manipulationRisk.(confidence)] ;;;
  length' <- Array_length validObservations ;;
  ret {| twapTick := twapTick;
         twapPrice := adjustedPrice;
         currentPrice := currentPrice;
         timePeriodHours := timeDiff / 3600;
         observationCount := length';
         priceDifferencePercent := priceDiffPercent;
         manipulationAnalysis := manipulationRisk |}.

(** [twap-cli.js] carries its own copy of the engine, the same statements
    calling the imported [detectManipulation]. *)
Definition calculateTWAPCLI (poolState : PoolState) (observationState : ObservationState)
    : M Observation TwapResult :=
  let observations := observationState.(observations_data) in
  let currentTick := poolState.(tick_current) in
  validObservations <-
    Array_filter (fun obs => gtb obs.(block_timestamp) 0) observations ;;
  Array_sort (fun a b => a.(block_timestamp) - b.(block_timestamp)) validObservations ;;;
  length <- Array_length validObservations ;;
  console_log [ofNat length] ;;;
  first <- Array_get validObservations 0 ;;
  firstTimestamp <- prop first block_timestamp ;;
  last <- Array_get validObservations (Z.of_nat length - 1) ;;
  lastTimestamp <- prop last block_timestamp ;;
  console_log [firstTimestamp; lastTimestamp] ;;;
  if (length <? 2)%nat then throw insufficientData else
  oldestObs <- Array_get validObservations 0 ;;
  newestObs <- Array_get validObservations (Z.of_nat length - 1) ;;
  newestTimestamp <- prop newestObs block_timestamp ;;
  oldestTimestamp <- prop oldestObs block_timestamp ;;
  let timeDiff := newestTimestamp - oldestTimestamp in
  newestCumulative <- prop newestObs tick_cumulative ;;
  oldestCumulative <- prop oldestObs tick_cumulative ;;
  let tickCumulativeDiff := parseInt newestCumulative - parseInt oldestCumulative in
  let twapTick := tickCumulativeDiff / timeDiff in
  console_log [timeDiff; timeDiff / 3600; tickCumulativeDiff; twapTick] ;;;
  let price := Math_pow 1.0001 twapTick in
  let decimals0 := poolState.(mint_decimals_0) in
  let decimals1 := poolState.(mint_decimals_1) in
  let decimalAdjustment := Math_pow 10 (decimals1 - decimals0) in
  let adjustedPrice := price * decimalAdjustment in
  console_log [twapTick; price; decimalAdjustment; decimals0; decimals1; adjustedPrice] ;;;
  let currentPrice := Math_pow 1.0001 currentTick * decimalAdjustment in
  console_log [currentPrice; (adjustedPrice - currentPrice) / currentPrice * 100] ;;;
  let priceDiffPercent := Math_abs ((adjustedPrice - currentPrice) / currentPrice * 100) in
  elements <- Array_elements validObservations ;;
  let manipulationRisk := detectManipulation priceDiffPercent (timeDiff / 3600) elements in
  console_log [priceDiffPercent; manipulationRisk.(confidence)] ;;;
  length' <- Array_length validObservations ;;
  ret {| twapTick := twapTick;
         twapPrice := adjustedPrice;
         currentPrice := currentPrice;
         timePeriodHours := timeDiff / 3600;
         observationCount := length';
         priceDifferencePercent := priceDiffPercent;
         manipulationAnalysis := manipulationRisk |}.

End Engine.

(* ================================================================== *)
(** * Parsed JSON and the command line ([twap-cli.js], lines 15-204)

    The engine above works on the typed view of its arguments.  The
    command line receives whatever [JSON.parse] returns, so its functions
    are embedded on JavaScript values.  The property names the program
    reads ([observations], [data], [block_timestamp], ...) are never an
    index, [length] or an inherited property, so primitives and arrays
    have none of them. *)
(* ================================================================== *)

Inductive Value :=
  | VUndefined
  | VNull
  | VBool (b : bool)
  | VNumber (n : number)
  | VString (s : string)
  | VArray (elements : list Value)
  | VObject (properties : list (string * Value)).

(** [!!v] *)
Definition truthy (v : Value) : bool :=
  match v with
  | VUndefined | VNull => false
  | VBool b => b
  | VNumber n => negb ((n =? 0) || isNaN n)
  | VString EmptyString => false
  | VString _ => true
  | VArray _ | VObject _ => true
  end.

Definition isUndefined (v : Value) : bool :=
  match v with VUndefined => true | _ => false end.

Definition isNullish (v : Value) : bool :=
  match v with VUndefined | VNull => true | _ => false end.

(** The value of the own property [k]; [undefined] when there is none. *)
Fixpoint lookup (k : string) (properties : list (string * Value)) : Value :=
  match properties with
  | [] => VUndefined
  | (k', v) :: rest => if String.eqb k k' then v else lookup k rest
  end.

(** [v[k]] and [v.k]: a TypeError on [undefined] and [null]. *)
Definition getProp (v : Value) (k : string) : Completion Value :=
  match v with
  | VUndefined => Throw (TypeError "Cannot read properties of undefined")
  | VNull => Throw (TypeError "Cannot read properties of null")
  | VObject properties => Normal (lookup k properties)
  | _ => Normal VUndefined
  end.

(** [v?.k] *)
Definition getPropOptional (v : Value) (k : string) : Completion Value :=
  if isNullish v then Normal VUndefined else getProp v k.

(** [a || b] on values. *)
Definition orValue (a b : Value) : Value := if truthy a then a else b.

Definition bindC {A B} (m : Completion A) (k : A -> Completion B) : Completion B :=
  match m with
  | Normal a => k a
  | Throw e => Throw e
  end.

Notation "x <~ m ;; k" := (bindC m (fun x => k))
  (at level 61, m at next level, right associativity).

(** [a.filter(p)] with a callback that may throw: the first exception
    ends the loop. *)
Fixpoint filterC (p : Value -> Completion bool) (l : list Value) : Completion (list Value) :=
  match l with
  | [] => Normal []
  | x :: rest =>
      keep <~ p x ;;
      kept <~ filterC p rest ;;
      Normal (if keep then x :: kept else kept)
  end.

(** The host of the command line: [Math.pow], the conversions between
    strings and Numbers, the file system and [JSON.parse].  Every theorem
    holds for every host. *)
Module Host.
Record t := {
  Math_pow : number -> number -> number;
  StringToNumber : string -> number;
  NumberToString : number -> string;
  existsSync : string -> bool;
  readFileSync : string -> Completion string;
  JSON_parse : string -> Completion Value
}.
End Host.

Section CommandLine.

Variable host : Host.t.

(** [String(v)]; an array joins its elements with commas, [null] and
    [undefined] elements as empty strings. *)
Fixpoint ToString (v : Value) : string :=
  match v with
  | VUndefined => "undefined"
  | VNull => "null"
  | VBool true => "true"
  | VBool false => "false"
  | VNumber n => Host.NumberToString host n
  | VString s => s
  | VArray elements =>
      String.concat ","
        (map (fun x => match x with
                       | VUndefined | VNull => EmptyString
                       | _ => ToString x
                       end) elements)
  | VObject _ => "[object Object]"
  end.

(** [Number(v)]; arrays and objects convert through their string. *)
Definition ToNumber (v : Value) : number :=
  match v with
  | VUndefined => nan
  | VNull => 0
  | VBool true => 1
  | VBool false => 0
  | VNumber n => n
  | VString s => Host.StringToNumber host s
  | VArray _ | VObject _ => Host.StringToNumber host (ToString v)
  end.

(** ** [validatePoolState] (lines 60-70) *)

Definition required : list string :=
  ["tick_current"; "mint_decimals_0"; "mint_decimals_1"]%string.

Definition missingField (field : string) : Exception :=
  Error (String.append "Missing required field in PoolState: " field).

(** The [for ... of] loop over [required]. *)
Fixpoint validatePoolState_loop (poolState : Value) (fields : list string) : Completion bool :=
  match fields with
  | [] => Normal true
  | field :: rest =>
      entry <~ getProp poolState field ;;
      if negb (truthy entry) then Throw (missingField field)
      else
        data <~ getProp entry "data" ;;
        if isUndefined data then Throw (missingField field)
        else validatePoolState_loop poolState rest
  end.

Definition validatePoolState (poolState : Value) : Completion bool :=
  validatePoolState_loop poolState required.

(** ** [validateObservationState] (lines 72-83) *)

Definition invalidObservationState : Exception :=
  Error "Invalid ObservationState: missing observations.data array".

Definition tooFewValid : Exception :=
  Error "Need at least 2 valid observations with timestamps > 0".

(** [obs => obs.block_timestamp > 0] *)
Definition hasPositiveTimestamp (obs : Value) : Completion bool :=
  timestamp <~ getProp obs "block_timestamp" ;;
  Normal (gtb (ToNumber timestamp) 0).

Definition validateObservationState (obsState : Value) : Completion bool :=
  observations <~ getProp obsState "observations" ;;
  if negb (truthy observations) then Throw invalidObservationState
  else
    data <~ getProp observations "data" ;;
    if negb (truthy data) then Throw invalidObservationState
    else
      match data with
      | VArray elements =>
          validObs <~ filterC hasPositiveTimestamp elements ;;
          if (List.length validObs <? 2)%nat then Throw tooFewValid
          else Normal true
      | _ => Throw invalidObservationState
      end.

(** ** [calculateTWAPCLI] on parsed JSON

    The typed view of an element of [observations.data]: the Number its
    [block_timestamp] converts to in [>] and [-], and the string
    [parseInt] makes of its [tick_cumulative]. *)
Definition toObservation (obs : Value) : Completion Observation :=
  timestamp <~ getProp obs "block_timestamp" ;;
  cumulative <~ getProp obs "tick_cumulative" ;;
  Normal {| block_timestamp := ToNumber timestamp;
            tick_cumulative := ToString cumulative |}.

Fixpoint toObservations (elements : list Value) : Completion (list Observation) :=
  match elements with
  | [] => Normal []
  | x :: rest =>
      obs <~ toObservation x ;;
      others <~ toObservations rest ;;
      Normal (obs :: others)
  end.

(** [poolState.<field>.data] as the Number the engine computes with. *)
Definition poolNumber (poolState : Value) (field : string) : Completion number :=
  entry <~ getProp poolState field ;;
  data <~ getProp entry "data" ;;
  Normal (ToNumber data).

(** [calculateTWAPCLI(poolState, obsState)] as [main] calls it: the
    property reads of lines 208-209, the engine on the typed view of the
    array, and the property reads of lines 243-244, which come after the
    engine's own checks. *)
Definition calculateTWAPCLI_parsed (poolState obsState : Value) : Completion TwapResult :=
  observationsEntry <~ getProp obsState "observations" ;;
  observations <~ getProp observationsEntry "data" ;;
  currentTick <~ poolNumber poolState "tick_current" ;;
  match observations with
  | VArray elements =>
      typed <~ toObservations elements ;;
      let decimals :=
        decimals0 <~ poolNumber poolState "mint_decimals_0" ;;
        decimals1 <~ poolNumber poolState "mint_decimals_1" ;;
        Normal (decimals0, decimals1) in
      let '(decimals0, decimals1) :=
        match decimals with Normal d => d | Throw _ => (0, 0) end in
      let typedPool := {| tick_current := currentTick;
                          mint_decimals_0 := decimals0;
                          mint_decimals_1 := decimals1 |} in
      result <~ fst (calculateTWAPCLI (Host.Math_pow host) typedPool
                       {| observations_data := 0%nat |} [typed]) ;;
      _ <~ decimals ;;
      Normal result
  | _ =>
      _ <~ getProp observations "filter" ;;
      Throw (TypeError "observations.filter is not a function")
  end.

(** ** [printPoolInfo] (lines 132-143): the lines it logs *)

Definition orNA (v : Value) : string := ToString (orValue v (VString "N/A")).

Definition optionalData (poolState : Value) (field : string) : Completion Value :=
  entry <~ getProp poolState field ;;
  getPropOptional entry "data".

Definition printPoolInfo (poolState : Value) : Completion (list string) :=
  decimals0 <~ optionalData poolState "mint_decimals_0" ;;
  decimals1 <~ optionalData poolState "mint_decimals_1" ;;
  tick <~ optionalData poolState "tick_current" ;;
  liquidity <~ optionalData poolState "liquidity" ;;
  mint0 <~ optionalData poolState "token_mint_0" ;;
  let lines :=
    [ String "010"%char "📊 POOL INFORMATION:";
      String.append "Token 0 Decimals: " (orNA decimals0);
      String.append "Token 1 Decimals: " (orNA decimals1);
      String.append "Current Tick: " (orNA tick);
      String.append "Liquidity: " (orNA liquidity) ]%string in
  if truthy mint0 then
    mint1 <~ optionalData poolState "token_mint_1" ;;
    if truthy mint1 then
      Normal (lines ++ [ String.append "Token 0 Mint: " (ToString mint0);
                         String.append "Token 1 Mint: " (ToString mint1) ])
    else Normal lines
  else Normal lines.

(** ** The process *)

(** A function of the command line returns, or has ended the process
    with [process.exit(status)]. *)
Inductive Process (A : Type) :=
  | Done (a : A)
  | Exit (status : Z).
Arguments Done {A} a.
Arguments Exit {A} status.

Definition bindP {A B} (m : Process A) (k : A -> Process B) : Process B :=
  match m with
  | Done a => k a
  | Exit status => Exit status
  end.

(** ** [parseArguments] (lines 15-44)

    A key of [options] is absent, or present with the next argument as
    its value, [undefined] ([None]) when the flag came last. *)
Inductive Slot :=
  | Absent
  | Present (value : option string).

Record Options := {
  poolFile : Slot;
  obsFile : Slot;
  poolJson : Slot;
  obsJson : Slot;
  interactive : bool
}.

Definition noOptions : Options :=
  {| poolFile := Absent; obsFile := Absent; poolJson := Absent; obsJson := Absent;
     interactive := false |}.

(** The loop over [args], from the argument at [i] on.  A flag with a
    value takes [args[++i]], [undefined] past the end, and the loop goes
    on after it. *)
Fixpoint parseArguments_loop (args : list string) (options : Options) : Process Options :=
  match args with
  | [] => Done options
  | arg :: rest =>
      let value := hd_error rest in
      let afterValue :=
        match rest with
        | [] => fun options' => Done options'
        | _ :: rest' => parseArguments_loop rest'
        end in
      if String.eqb arg "--pool-file" then
        afterValue {| poolFile := Present value; obsFile := options.(obsFile);
                      poolJson := options.(poolJson); obsJson := options.(obsJson);
                      interactive := options.(interactive) |}
      else if String.eqb arg "--obs-file" then
        afterValue {| poolFile := options.(poolFile); obsFile := Present value;
                      poolJson := options.(poolJson); obsJson := options.(obsJson);
                      interactive := options.(interactive) |}
      else if String.eqb arg "--pool-json" then
        afterValue {| poolFile := options.(poolFile); obsFile := options.(obsFile);
                      poolJson := Present value; obsJson := options.(obsJson);
                      interactive := options.(interactive) |}
      else if String.eqb arg "--obs-json" then
        afterValue {| poolFile := options.(poolFile); obsFile := options.(obsFile);
                      poolJson := options.(poolJson); obsJson := Present value;
                      interactive := options.(interactive) |}
      else if String.eqb arg "--interactive" || String.eqb arg "-i" then
        parseArguments_loop rest
          {| poolFile := options.(poolFile); obsFile := options.(obsFile);
             poolJson := options.(poolJson); obsJson := options.(obsJson);
             interactive := true |}
      else Exit 1
  end.

(** [parseArguments()] on [process.argv.slice(2)]. *)
Definition parseArguments (args : list string) : Process Options :=
  parseArguments_loop args noOptions.

(** ** [loadFromFile] (lines 46-58): every failure ends the process *)

Definition loadFromFile (filePath : string) : Process Value :=
  let attempt :=
    if negb (Host.existsSync host filePath)
    then Throw (Error (String.append "File not found: " filePath))
    else
      content <~ Host.readFileSync host filePath ;;
      Host.JSON_parse host content in
  match attempt with
  | Normal v => Done v
  | Throw _ => Exit 1
  end.

(** ** [promptForData] (lines 85-124): each answer is tried as JSON,
    then as a file path *)

Definition parseOrLoad (input : string) : Process Value :=
  match Host.JSON_parse host input with
  | Normal v => Done v
  | Throw _ => loadFromFile input
  end.

Definition promptForData (poolInput obsInput : string) : Process (Value * Value) :=
  bindP (parseOrLoad poolInput) (fun poolState =>
  bindP (parseOrLoad obsInput) (fun obsState =>
  Done (poolState, obsState))).

(** ** [main] (lines 145-204) *)

Definition slotTruthy (s : Slot) : bool :=
  match s with
  | Present (Some EmptyString) => false
  | Present (Some _) => true
  | _ => false
  end.

Definition slotString (s : Slot) : string :=
  match s with
  | Present (Some v) => v
  | _ => EmptyString
  end.

Definition slotCount (s : Slot) : nat :=
  match s with Absent => 0 | Present _ => 1 end.

(** [Object.keys(options).length] *)
Definition keysLength (options : Options) : nat :=
  slotCount options.(poolFile) + slotCount options.(obsFile)
  + slotCount options.(poolJson) + slotCount options.(obsJson)
  + (if options.(interactive) then 1 else 0).

(** Where the data come from, given the options; [poolInput] and
    [obsInput] are the two answers typed in interactive mode. *)
Definition loadData (options : Options) (poolInput obsInput : string)
    : Process (Value * Value) :=
  if slotTruthy options.(poolFile) && slotTruthy options.(obsFile) then
    bindP (loadFromFile (slotString options.(poolFile))) (fun poolState =>
    bindP (loadFromFile (slotString options.(obsFile))) (fun obsState =>
    Done (poolState, obsState)))
  else if slotTruthy options.(poolJson) && slotTruthy options.(obsJson) then
    match (poolState <~ Host.JSON_parse host (slotString options.(poolJson)) ;;
           obsState <~ Host.JSON_parse host (slotString options.(obsJson)) ;;
           Normal (poolState, obsState)) with
    | Normal d => Done d
    | Throw _ => Exit 1
    end
  else if options.(interactive) || (keysLength options =? 0)%nat then
    promptForData poolInput obsInput
  else Exit 1.

(** What [main] does with the data, inside its [try]. *)
Definition analyse (poolState obsState : Value) : Completion TwapResult :=
  _ <~ validatePoolState poolState ;;
  _ <~ validateObservationState obsState ;;
  _ <~ printPoolInfo poolState ;;
  calculateTWAPCLI_parsed poolState obsState.

(** [main()]: it returns after summarising the result, or the process
    has ended; the [catch] of line 200 turns every exception into
    [process.exit(1)]. *)
Definition main (args : list string) (poolInput obsInput : string) : Process TwapResult :=
  bindP (parseArguments args) (fun options =>
  bindP (loadData options poolInput obsInput) (fun '(poolState, obsState) =>
  match analyse poolState obsState with
  | Normal result => Done result
  | Throw _ => Exit 1
  end)).

End CommandLine.

Arguments Done {A} a.
Arguments Exit {A} status.

(* ================================================================== *)
(** * Definitions used by the statements and the proofs *)
(* ================================================================== *)

Module FloatDefs.
Local Open Scope Z_scope.

(** A rounded result that kept the sign [s] and is not zero. *)
Definition signed (s : bool) (r : spec_float) : Prop :=
  match r with
  | S754_finite s' _ _ | S754_infinity s' => s' = s
  | _ => False
  end.

(** An integer key for the positive numbers

    A positive finite binary64 value [m * 2^e] has [e >= -1074]; scaled by
    [2^1074] it is an integer, and [+Infinity] is given a key above all of
    them. *)
Definition key (x : spec_float) : Z :=
  match x with
  | S754_finite false m e => Z.pos m * 2 ^ (e + 1074)
  | S754_infinity false => 2 ^ 2200
  | _ => 0
  end.

(** The valid numbers greater than zero. *)
Definition positive_value (x : spec_float) : Prop :=
  match x with
  | S754_finite false m e => bounded prec emax m e = true
  | S754_infinity false => True
  | _ => False
  end.

(** A shift record with no bit lost. *)
Definition exact (m : Z) : shr_record := {| shr_m := m; shr_r := false; shr_s := false |}.

(** [p * 2^k], for [k >= 0]. *)
Definition shl (p : positive) (k : Z) : positive :=
  match k with Z.pos n => Pos.iter xO p n | _ => p end.

(** [n] steps of [shr_1], for [n >= 0]. *)
Definition shrZ (mrs : shr_record) (n : Z) : shr_record :=
  match n with Z.pos k => Pos.iter shr_1 mrs k | _ => mrs end.

(** The state of [binary_round] after its first shift. *)
Definition first_shift (p : positive) (e : Z) : shr_record * Z :=
  let '(mz, ez) := shl_align p e (fexp prec emax (Z.pos (digits2_pos p) + e)) in
  shr_fexp prec emax (Z.pos mz) ez loc_Exact.

(** The rounding of an integer to a Number, on the specification. *)
Definition roundZ (z : Z) : spec_float := binary_normalize prec emax z 0 false.


End FloatDefs.

(** The key of a timestamp. *)
Definition tkey (t : number) : Z := FloatDefs.key (Prim2SF t).


(** The callback of [filter] and the comparison function of [sort] in
    the engine, and the array the engine works on: the valid
    observations, sorted. *)
Definition validObservation (obs : Observation) : bool := gtb obs.(block_timestamp) 0.
Definition byTimestamp (a b : Observation) : number := a.(block_timestamp) - b.(block_timestamp).
Definition sortedValid (observations : list Observation) : list Observation :=
  stableSort byTimestamp (filter validObservation observations).

(** [Number.isFinite]. *)
Definition isFinite (x : number) : bool :=
  match Prim2SF x with
  | S754_zero _ | S754_finite _ _ _ => true
  | _ => false
  end.

(** What the engine computes from the sorted array of valid observations
    once the store is left aside; [calculateTWAP_run] proves that the
    engine returns this. *)
Definition twapOf (Math_pow : number -> number -> number) (poolState : PoolState)
    (sorted : list Observation) : Completion TwapResult :=
  match sorted with
  | [] => Throw (TypeError "Cannot read properties of undefined")
  | oldestObs :: _ =>
      if (List.length sorted <? 2)%nat then Throw insufficientData
      else
        let newestObs := last sorted oldestObs in
        let timeDiff := newestObs.(block_timestamp) - oldestObs.(block_timestamp) in
        let tickCumulativeDiff :=
          parseInt newestObs.(tick_cumulative) - parseInt oldestObs.(tick_cumulative) in
        let twapTick := tickCumulativeDiff / timeDiff in
        let decimalAdjustment :=
          Math_pow 10 (poolState.(mint_decimals_1) - poolState.(mint_decimals_0)) in
        let adjustedPrice := Math_pow 1.0001 twapTick * decimalAdjustment in
        let currentPrice := Math_pow 1.0001 poolState.(tick_current) * decimalAdjustment in
        let priceDiffPercent :=
          Math_abs ((adjustedPrice - currentPrice) / currentPrice * 100) in
        Normal {| twapTick := twapTick;
                  twapPrice := adjustedPrice;
                  currentPrice := currentPrice;
                  timePeriodHours := timeDiff / 3600;
                  observationCount := List.length sorted;
                  priceDifferencePercent := priceDiffPercent;
                  manipulationAnalysis :=
                    detectManipulation priceDiffPercent (timeDiff / 3600) sorted |}
  end.

(** The conditions of factors 3 and 5 as [detectManipulation] computes
    them from the observations. *)
Definition tickSpike (observations : list Observation) : bool :=
  let tickMovements := tickMovementsOf observations in
  let avgTickMovement :=
    fold_left (fun a b => a + b) tickMovements 0 / ofNat (List.length tickMovements) in
  let maxMovement := Math_max (map Math_abs tickMovements) in
  gtb maxMovement (Math_abs avgTickMovement * 10).

Definition repetitivePatterns (observations : list Observation) : bool :=
  Set_size (uniqueRatiosOf observations) <? ofNat (List.length observations) * 0.3.

(** The confidence as the specification words it: the sum of the
    adjustments in the integers, clamped to [0, 100]. *)
Definition specConfidenceSum (factors : list Factor) (timePeriodHours : number) : Z :=
  (50
   + (if gtb timePeriodHours 1%float then 20 else 0)
   + (if gtb timePeriodHours 6%float then 15 else 0)
   + (if includes factors NORMAL_MOVEMENT then 15 else 0)
   + (if includes factors EXTREME_PRICE_DIFF then 25 else 0)
   - (if includes factors INSUFFICIENT_DATA then 30 else 0))%Z.

Definition clamp (lo hi x : Z) : Z := Z.min (Z.max x lo) hi.

(** The warning as the specification words it: the message of the first
    factor present, in the order EXTREME_PRICE_DIFF, HIGH_PRICE_DIFF,
    RAPID_PRICE_CHANGE, INSUFFICIENT_DATA. *)
Definition specWarning (factors : list Factor) : option string :=
  if includes factors EXTREME_PRICE_DIFF then
    Some "Extreme price difference detected! Possible pump/dump or flash loan attack"%string
  else if includes factors HIGH_PRICE_DIFF then
    Some "Very high price difference - investigate for manipulation"%string
  else if includes factors RAPID_PRICE_CHANGE then
    Some "Rapid price change in short timeframe - possible manipulation"%string
  else if includes factors INSUFFICIENT_DATA then
    Some "Very short observation period - results may not be reliable"%string
  else None.

(** The mathematical integer written in a cumulative-tick string. *)
Definition integerOf (s : string) : option Z :=
  match parseIntExact s with
  | Some (neg, z) => Some (if neg then - z else z)%Z
  | None => None
  end.

(** The mathematical integer that a Number holds, for the Numbers that
    hold one: the finite value [(-1)^s * m * 2^e] when it is an integer. *)
Definition integerValue (x : number) : option Z :=
  match Prim2SF x with
  | S754_zero _ => Some 0%Z
  | S754_finite s m e =>
      if (0 <=? e)%Z then Some (cond_Zopp s (Z.pos m * 2 ^ e))%Z
      else if (Z.pos m mod 2 ^ (- e) =? 0)%Z then Some (cond_Zopp s (Z.pos m / 2 ^ (- e)))%Z
      else None
  | _ => None
  end.

(** A host [Math.pow] to run the examples with: a power with an integer
    exponent by repeated squaring, NaN for any other exponent.  The
    theorems hold for every [Math_pow]. *)
Fixpoint powPositive (x : number) (n : positive) : number :=
  match n with
  | xH => x
  | xO p => let y := powPositive x p in y * y
  | xI p => let y := powPositive x p in x * (y * y)
  end.

Definition examplePow (x y : number) : number :=
  match Prim2SF y with
  | S754_zero _ => 1
  | S754_finite s m e =>
      let n := if (0 <=? e)%Z then Some (Z.pos m * 2 ^ e)%Z
               else if (Z.pos m mod 2 ^ (- e) =? 0)%Z then Some (Z.pos m / 2 ^ (- e))%Z
               else None in
      match n with
      | Some (Z.pos n) => if s then 1 / powPositive x n else powPositive x n
      | _ => nan
      end
  | _ => nan
  end.

(** [v.k] where the read cannot fail: [undefined] stands in on a nullish
    [v], for statements that exclude that case. *)
Definition propOf (v : Value) (k : string) : Value :=
  match getProp v k with
  | Normal x => x
  | Throw _ => VUndefined
  end.

(** The TypeError of a property read on [undefined] or [null]. *)
Definition readError (v : Value) : Exception :=
  match v with
  | VNull => TypeError "Cannot read properties of null"
  | _ => TypeError "Cannot read properties of undefined"
  end.

(** The test [validatePoolState] makes of a field: a truthy entry whose
    [data] is not [undefined]. *)
Definition fieldPresent (poolState : Value) (field : string) : bool :=
  truthy (propOf poolState field)
  && negb (isUndefined (propOf (propOf poolState field) "data")).



(** The flags [parseArguments] knows. *)
Definition knownFlags : list string :=
  ["--pool-file"; "--obs-file"; "--pool-json"; "--obs-json"; "--interactive"; "-i"]%string.

(** A host to run the examples with: [examplePow], decimal integers for
    the strings converted to Numbers and for the Numbers converted to
    strings, and a file system with the two files [pool.json] and
    [observations.json], which [JSON.parse] reads as [examplePool] and
    [exampleObservations].  The theorems hold for every host. *)
Definition examplePool : Value :=
  VObject [ ("tick_current", VObject [("data", VNumber (-16520))]);
            ("mint_decimals_0", VObject [("data", VNumber 9)]);
            ("mint_decimals_1", VObject [("data", VNumber 6)]);
            ("liquidity", VObject [("data", VString "221871739500047")]) ]%string.

Definition exampleObservations : Value :=
  VObject
    [ ("observations",
       VObject
         [ ("data",
            VArray
              [ VObject [ ("block_timestamp", VNumber 1755188942);
                          ("tick_cumulative", VString "-576731966831") ];
                VObject [ ("block_timestamp", VNumber 0);
                          ("tick_cumulative", VString "0") ];
                VObject [ ("block_timestamp", VNumber 1755187080);
                          ("tick_cumulative", VString "-576701345305") ] ]) ]) ]%string.

Definition exampleHost : Host.t :=
  {| Host.Math_pow := examplePow;
     Host.StringToNumber := parseInt;
     Host.NumberToString := fun n =>
       match integerValue n with
       | Some z => NilZero.string_of_int (Z.to_int z)
       | None => "NaN"%string
       end;
     Host.existsSync := fun filePath =>
       String.eqb filePath "pool.json" || String.eqb filePath "observations.json";
     Host.readFileSync := fun filePath =>
       if String.eqb filePath "pool.json" then Normal "pool document"%string
       else if String.eqb filePath "observations.json" then Normal "observations document"%string
       else Throw (Error "ENOENT: no such file or directory");
     Host.JSON_parse := fun text =>
       if String.eqb text "pool document" then Normal examplePool
       else if String.eqb text "observations document" then Normal exampleObservations
       else Throw (Error "Unexpected token") |}.

(** The rank of a factor in the order the checks run. *)
Definition factorRank (f : Factor) : nat :=
  match f with
  | EXTREME_PRICE_DIFF | HIGH_PRICE_DIFF | MODERATE_PRICE_DIFF => 0
  | RAPID_PRICE_CHANGE => 1
  | TICK_SPIKE => 2
  | INSUFFICIENT_DATA => 3
  | REPETITIVE_PATTERNS => 4
  | NORMAL_MOVEMENT => 5
  end.

(* ================================================================== *)
(** * Facts about binary64 arithmetic

    [Stdlib.Floats] specifies the primitive operations by functions on
    [spec_float]; the facts the program relies on are proved on that
    specification: rounding a non-zero integer at an exponent of the
    format never gives zero, so the sign of a difference of positive
    numbers is the sign of the exact difference. *)
(* ================================================================== *)

Module FloatFacts.
Import FloatDefs.
Local Open Scope Z_scope.

Lemma digits2_pos_bounds (m : positive) :
  2 ^ (Z.pos (digits2_pos m) - 1) <= Z.pos m < 2 ^ Z.pos (digits2_pos m).
Proof.
  induction m as [m IH | m IH | ]; cbn [digits2_pos].
  - rewrite Pos2Z.inj_succ.
    replace (Z.succ (Z.pos (digits2_pos m)) - 1) with (Z.succ (Z.pos (digits2_pos m) - 1)) by lia.
    rewrite !Z.pow_succ_r by lia. lia.
  - rewrite Pos2Z.inj_succ.
    replace (Z.succ (Z.pos (digits2_pos m)) - 1) with (Z.succ (Z.pos (digits2_pos m) - 1)) by lia.
    rewrite !Z.pow_succ_r by lia. lia.
  - cbn. lia.
Qed.

Lemma shr_1_div2 (mrs : shr_record) :
  0 <= shr_m mrs -> shr_m (shr_1 mrs) = shr_m mrs / 2.
Proof.
  destruct mrs as [m r s]; cbn [shr_m]. intros Hm.
  rewrite <- Z.div2_div.
  destruct m as [ | [p | p | ] | p]; cbn; try reflexivity; lia.
Qed.

Lemma iter_pos_shr_1 (p : positive) : forall mrs,
  0 <= shr_m mrs -> shr_m (iter_pos shr_1 p mrs) = shr_m mrs / 2 ^ Z.pos p.
Proof.
  induction p as [p IH | p IH | ]; intros mrs Hm; cbn [iter_pos].
  - assert (H1 : 0 <= shr_m (shr_1 mrs)) by (rewrite shr_1_div2 by lia; apply Z.div_pos; lia).
    assert (H2 : 0 <= shr_m (iter_pos shr_1 p (shr_1 mrs)))
      by (rewrite IH by lia; apply Z.div_pos; [lia | apply Z.pow_pos_nonneg; lia]).
    rewrite IH, IH, shr_1_div2 by lia.
    rewrite !Z.div_div by (try apply Z.pow_pos_nonneg; lia).
    f_equal. rewrite (Pos2Z.inj_xI p).
    replace (2 * Z.pos p + 1) with (1 + Z.pos p + Z.pos p) by lia.
    rewrite (Z.pow_add_r 2 (1 + Z.pos p) (Z.pos p)), (Z.pow_add_r 2 1 (Z.pos p)) by lia. lia.
  - assert (H2 : 0 <= shr_m (iter_pos shr_1 p mrs))
      by (rewrite IH by lia; apply Z.div_pos; [lia | apply Z.pow_pos_nonneg; lia]).
    rewrite IH, IH by lia.
    rewrite !Z.div_div by (try apply Z.pow_pos_nonneg; lia).
    f_equal. rewrite (Pos2Z.inj_xO p).
    replace (2 * Z.pos p) with (Z.pos p + Z.pos p) by lia.
    rewrite (Z.pow_add_r 2 (Z.pos p) (Z.pos p)) by lia. lia.
  - rewrite shr_1_div2 by lia. reflexivity.
Qed.

Lemma shr_m_of_loc m l : shr_m (shr_record_of_loc m l) = m.
Proof. destruct l as [ | [ | | ]]; reflexivity. Qed.

(** Rounding a positive mantissa at an exponent not below [emin] never
    reaches zero. *)
Lemma shr_fexp_pos (m e : Z) (l : location) :
  0 < m -> -1074 <= e ->
  0 < shr_m (fst (shr_fexp prec emax m e l)) /\ -1074 <= snd (shr_fexp prec emax m e l).
Proof.
  intros Hm He. unfold shr_fexp, shr.
  destruct m as [ | m | m]; try lia.
  pose proof (digits2_pos_bounds m) as Hd.
  cbn [Zdigits2].
  destruct (fexp prec emax (Z.pos (digits2_pos m) + e) - e) as [ | n | n] eqn:Hn;
    cbn [fst snd]; rewrite ?shr_m_of_loc; try lia.
  rewrite iter_pos_shr_1 by (rewrite shr_m_of_loc; lia).
  rewrite shr_m_of_loc.
  unfold fexp, emin, prec, emax in Hn.
  split; [ | lia].
  apply Z.div_str_pos. split; [apply Z.pow_pos_nonneg; lia | ].
  transitivity (2 ^ (Z.pos (digits2_pos m) - 1)); [ | lia].
  apply Z.pow_le_mono_r; lia.
Qed.

Lemma round_nearest_even_pos m l : 0 < m -> 0 < round_nearest_even m l.
Proof.
  intros Hm. destruct l as [ | [ | | ]]; cbn; try lia.
  destruct (Z.even m); lia.
Qed.

Lemma binary_round_aux_signed s m e l :
  0 < m -> -1074 <= e -> signed s (binary_round_aux prec emax s m e l).
Proof.
  intros Hm He. unfold binary_round_aux.
  pose proof (shr_fexp_pos m e l Hm He) as [H1 H2].
  destruct (shr_fexp prec emax m e l) as [mrs' e'] eqn:E1. cbn [fst snd] in H1, H2.
  pose proof (shr_fexp_pos _ e' loc_Exact
                (round_nearest_even_pos _ (loc_of_shr_record mrs') H1) H2) as [H3 _].
  destruct (shr_fexp prec emax (round_nearest_even (shr_m mrs') (loc_of_shr_record mrs')) e' loc_Exact)
    as [mrs'' e''] eqn:E2. cbn [fst] in H3.
  destruct (shr_m mrs'') as [ | p | p]; try lia.
  destruct (e'' <=? emax - prec); reflexivity.
Qed.

Lemma binary_round_signed s m e :
  -1074 <= e -> signed s (binary_round prec emax s m e).
Proof.
  intros He. unfold binary_round.
  destruct (shl_align m e (fexp prec emax (Z.pos (digits2_pos m) + e))) as [mz ez] eqn:E.
  apply binary_round_aux_signed; [lia | ].
  unfold shl_align in E.
  destruct (fexp prec emax (Z.pos (digits2_pos m) + e) - e) eqn:Hn;
    inversion E; subst; try lia.
  unfold fexp, emin, prec, emax. lia.
Qed.

Lemma pos_iter_xO (m d : positive) : Z.pos (Pos.iter xO m d) = Z.pos m * 2 ^ Z.pos d.
Proof.
  induction d as [ | d IH] using Pos.peano_ind.
  - cbn. lia.
  - rewrite Pos.iter_succ, Pos2Z.inj_xO, IH, Pos2Z.inj_succ, Z.pow_succ_r by lia. lia.
Qed.

Lemma shl_align_value (m : positive) (e ez : Z) :
  ez <= e -> Z.pos (fst (shl_align m e ez)) = Z.pos m * 2 ^ (e - ez).
Proof.
  intros H. unfold shl_align.
  destruct (ez - e) as [ | d | d] eqn:Hd; cbn [fst]; try lia.
  - replace (e - ez) with 0 by lia. lia.
  - rewrite pos_iter_xO. f_equal. f_equal. lia.
Qed.


Lemma bounded_inv m e :
  bounded prec emax m e = true ->
  -1074 <= e <= 971 /\ Z.pos m < 2 ^ 53 /\ (e = -1074 \/ 2 ^ 52 <= Z.pos m).
Proof.
  unfold bounded, canonical_mantissa, fexp, emin, prec, emax.
  intros H. apply andb_true_iff in H as [H1 H2].
  apply Z.eqb_eq in H1. apply Z.leb_le in H2.
  pose proof (digits2_pos_bounds m) as [Hlo Hhi].
  assert (Hd : Z.pos (digits2_pos m) <= 53) by lia.
  repeat split; try lia.
  - eapply Z.lt_le_trans; [exact Hhi | apply Z.pow_le_mono_r; lia].
  - destruct (Z.eq_dec e (-1074)) as [ | Hne]; [now left | right].
    replace (Z.pos (digits2_pos m)) with 53 in Hlo by lia. exact Hlo.
Qed.

Lemma key_pos x : positive_value x -> 0 < key x.
Proof.
  destruct x as [ | [ | ] | | [ | ] m e]; cbn [key positive_value]; try tauto; intros H.
  - reflexivity.
  - apply bounded_inv in H. apply Z.mul_pos_pos; [lia | apply Z.pow_pos_nonneg; lia].
Qed.

Lemma key_finite_lt_infinity m e :
  bounded prec emax m e = true -> Z.pos m * 2 ^ (e + 1074) < 2 ^ 2200.
Proof.
  intros H. apply bounded_inv in H as [He [Hm _]].
  apply Z.lt_le_trans with (2 ^ 53 * 2 ^ (e + 1074)).
  - apply Z.mul_lt_mono_pos_r; [apply Z.pow_pos_nonneg; lia | exact Hm].
  - rewrite <- Z.pow_add_r by lia. apply Z.pow_le_mono_r; lia.
Qed.

Lemma key_exponent_lt m1 e1 m2 e2 :
  bounded prec emax m1 e1 = true -> bounded prec emax m2 e2 = true ->
  e1 < e2 -> Z.pos m1 * 2 ^ (e1 + 1074) < Z.pos m2 * 2 ^ (e2 + 1074).
Proof.
  intros H1 H2 Hlt.
  apply bounded_inv in H1 as [He1 [Hm1 _]].
  apply bounded_inv in H2 as [He2 [_ [ | Hm2]]]; [lia | ].
  apply Z.lt_le_trans with (2 ^ 53 * 2 ^ (e1 + 1074)).
  - apply Z.mul_lt_mono_pos_r; [apply Z.pow_pos_nonneg; lia | exact Hm1].
  - apply Z.le_trans with (2 ^ 52 * 2 ^ (e2 + 1074)).
    + rewrite <- !Z.pow_add_r by lia. apply Z.pow_le_mono_r; lia.
    + apply Z.mul_le_mono_nonneg_r; [apply Z.pow_nonneg; lia | exact Hm2].
Qed.

(** On positive numbers [<] is the order of the keys. *)
Lemma SFltb_key x y :
  positive_value x -> positive_value y -> SFltb x y = (key x <? key y).
Proof.
  destruct x as [ | [ | ] | | [ | ] mx ex]; cbn [positive_value]; try tauto; intros Hx;
  destruct y as [ | [ | ] | | [ | ] my ey]; cbn [positive_value]; try tauto; intros Hy;
  unfold SFltb; cbn [SFcompare key].
  - symmetry. apply Z.ltb_ge. pose proof (key_finite_lt_infinity my ey Hy). lia.
  - symmetry. apply Z.ltb_lt. apply key_finite_lt_infinity, Hx.
  - destruct (Z.compare_spec ex ey) as [Heq | Hlt | Hgt].
    + subst ey. rewrite Pos.compare_cont_spec. cbn [Pos.switch_Eq].
      assert (Hp : 0 < 2 ^ (ex + 1074))
        by (apply bounded_inv in Hx; apply Z.pow_pos_nonneg; lia).
      destruct (Pos.compare_spec mx my) as [ -> | Hm | Hm]; symmetry.
      * apply Z.ltb_irrefl.
      * apply Z.ltb_lt. apply Z.mul_lt_mono_pos_r; [exact Hp | lia].
      * apply Z.ltb_ge. apply Z.mul_le_mono_nonneg_r; lia.
    + symmetry. apply Z.ltb_lt. now apply key_exponent_lt.
    + symmetry. apply Z.ltb_ge. apply Z.lt_le_incl. apply key_exponent_lt; trivial; lia.
Qed.

(** The aligned integer difference computed by [SFsub] has the sign of
    the difference of the keys. *)
Lemma aligned_difference_sign mx ex my ey :
  -1074 <= ex -> -1074 <= ey ->
  let ez := Z.min ex ey in
  let d := Z.pos (fst (shl_align mx ex ez)) - Z.pos (fst (shl_align my ey ez)) in
  Z.pos mx * 2 ^ (ex + 1074) - Z.pos my * 2 ^ (ey + 1074) = d * 2 ^ (ez + 1074).
Proof.
  intros Hx Hy ez d. subst d.
  rewrite !shl_align_value by (subst ez; lia).
  rewrite Z.mul_sub_distr_r, <- !Z.mul_assoc, <- !Z.pow_add_r by (subst ez; lia).
  f_equal; f_equal; f_equal; lia.
Qed.

Lemma binary_normalize_sign d e :
  -1074 <= e ->
  match binary_normalize prec emax d e false with
  | S754_zero _ => d = 0
  | S754_finite s _ _ | S754_infinity s => if s then d < 0 else 0 < d
  | S754_nan => False
  end.
Proof.
  intros He. destruct d as [ | p | p]; cbn [binary_normalize]; [reflexivity | | ].
  - pose proof (binary_round_signed false p e He) as H.
    destruct (binary_round prec emax false p e) as [ | s | | s ? ?]; cbn in H; try tauto; subst; lia.
  - pose proof (binary_round_signed true p e He) as H.
    destruct (binary_round prec emax true p e) as [ | s | | s ? ?]; cbn in H; try tauto; subst; lia.
Qed.

(** The sign of [x - y] on positive numbers. *)
Lemma SFsub_sign x y :
  positive_value x -> positive_value y ->
  SFltb (SF64sub x y) (S754_zero false) = (key x <? key y) /\
  SFltb (S754_zero false) (SF64sub x y) = (key y <? key x).
Proof.
  destruct x as [ | [ | ] | | [ | ] mx ex]; cbn [positive_value]; try tauto; intros Hx;
  destruct y as [ | [ | ] | | [ | ] my ey]; cbn [positive_value]; try tauto; intros Hy;
  unfold SF64sub; cbn [SFsub key negb].
  - pose proof (key_finite_lt_infinity my ey Hy).
    split; unfold SFltb; cbn [SFcompare]; symmetry; [apply Z.ltb_ge | apply Z.ltb_lt]; lia.
  - pose proof (key_finite_lt_infinity mx ex Hx).
    split; unfold SFltb; cbn [SFcompare]; symmetry; [apply Z.ltb_lt | apply Z.ltb_ge]; lia.
  - pose proof (bounded_inv _ _ Hx) as [Hex _]. pose proof (bounded_inv _ _ Hy) as [Hey _].
    pose proof (aligned_difference_sign mx ex my ey ltac:(lia) ltac:(lia)) as Hd.
    cbv zeta in Hd. cbn [cond_Zopp].
    set (d := Z.pos (fst (shl_align mx ex (Z.min ex ey)))
              - Z.pos (fst (shl_align my ey (Z.min ex ey)))) in *.
    assert (Hp : 0 < 2 ^ (Z.min ex ey + 1074)) by (apply Z.pow_pos_nonneg; lia).
    pose proof (binary_normalize_sign d (Z.min ex ey) ltac:(lia)) as Hs.
    destruct (binary_normalize prec emax d (Z.min ex ey) false) as [s | [ | ] | | [ | ] m e];
      try tauto; unfold SFltb; cbn [SFcompare]; split; symmetry;
      first [apply Z.ltb_lt | apply Z.ltb_ge]; nia.
Qed.

(** ** Exact subtraction of integers *)

Lemma iter_pos_iter {A} (f : A -> A) (p : positive) : forall x,
  iter_pos f p x = Pos.iter f x p.
Proof.
  induction p as [p IH | p IH | ]; intros x; cbn [iter_pos Pos.iter].
  - rewrite !IH, <- !Pos.iter_swap. reflexivity.
  - rewrite !IH. reflexivity.
  - reflexivity.
Qed.

Lemma shl_value p k : 0 <= k -> Z.pos (shl p k) = Z.pos p * 2 ^ k.
Proof. destruct k; cbn [shl]; try lia. intros _. apply pos_iter_xO. Qed.

Lemma digits2_pos_shl p k : 0 <= k ->
  Z.pos (digits2_pos (shl p k)) = Z.pos (digits2_pos p) + k.
Proof.
  destruct k as [ | n | n]; cbn [shl]; try lia. intros _.
  induction n as [ | n IH] using Pos.peano_ind.
  - cbn. lia.
  - rewrite Pos.iter_succ. cbn [digits2_pos]. lia.
Qed.

Lemma shl_shl p j k : 0 <= j -> 0 <= k -> shl (shl p j) k = shl p (j + k).
Proof.
  destruct j as [ | j | j], k as [ | k | k]; cbn [shl Z.add]; try lia; try reflexivity.
  intros _ _. rewrite Pos.add_comm. symmetry. apply Pos.iter_add.
Qed.

Lemma shrZ_shrZ mrs j k : 0 <= j -> 0 <= k -> shrZ (shrZ mrs j) k = shrZ mrs (j + k).
Proof.
  destruct j as [ | j | j], k as [ | k | k]; cbn [shrZ Z.add]; try lia; try reflexivity.
  intros _ _. rewrite Pos.add_comm. symmetry. apply Pos.iter_add.
Qed.

(** Shifting out the zeros that a shift to the left brought in. *)
Lemma shrZ_shl p n : 0 <= n -> shrZ (exact (Z.pos (shl p n))) n = exact (Z.pos p).
Proof.
  destruct n as [ | n | n]; cbn [shl shrZ]; try lia; try reflexivity. intros _.
  revert p. induction n as [ | n IH] using Pos.peano_ind; intros p.
  - reflexivity.
  - rewrite !Pos.iter_succ, <- Pos.iter_swap.
    cbn [shr_1 exact orb]. apply IH.
Qed.

(** A shift to the left by [x] followed by one to the right by [y]
    depends on [x - y] only. *)
Lemma shrZ_shl_diff p x y : 0 <= x -> 0 <= y ->
  shrZ (exact (Z.pos (shl p x))) y
  = if y <=? x then exact (Z.pos (shl p (x - y))) else shrZ (exact (Z.pos p)) (y - x).
Proof.
  intros Hx Hy. destruct (Z.leb_spec y x) as [H | H].
  - replace (shl p x) with (shl (shl p (x - y)) y)
      by (rewrite shl_shl by lia; f_equal; lia).
    now apply shrZ_shl.
  - replace y with (x + (y - x)) at 1 by lia.
    rewrite <- shrZ_shrZ, shrZ_shl by lia. reflexivity.
Qed.

Lemma shl_align_shl p e t :
  shl_align p e t = if t <? e then (shl p (e - t), t) else (p, e).
Proof.
  unfold shl_align. destruct (Z.ltb_spec t e) as [H | H].
  - destruct (t - e) as [ | d | d] eqn:E; try lia.
    replace (e - t) with (Z.pos d) by lia. reflexivity.
  - destruct (t - e) as [ | d | d] eqn:E; try lia; reflexivity.
Qed.

Lemma shr_exact m e n :
  shr (exact m) e n = (shrZ (exact m) n, if 0 <? n then e + n else e).
Proof. destruct n; cbn [shr shrZ]; try reflexivity. now rewrite iter_pos_iter. Qed.

(** The first shift brings the mantissa to the exponent [fexp] asks for:
    to the left when that exponent is below [e], to the right when it is
    above. *)
Lemma first_shift_eq p e :
  let t := fexp prec emax (Z.pos (digits2_pos p) + e) in
  first_shift p e
  = (shrZ (exact (Z.pos (shl p (Z.max (e - t) 0)))) (Z.max (t - e) 0), t).
Proof.
  intros t. unfold first_shift. fold t. rewrite shl_align_shl.
  destruct (Z.ltb_spec t e) as [H | H]; unfold shr_fexp; cbn [shr_record_of_loc Zdigits2];
    fold (exact (Z.pos (shl p (e - t)))); fold (exact (Z.pos p)); rewrite shr_exact.
  - rewrite digits2_pos_shl by lia.
    replace (Z.pos (digits2_pos p) + (e - t) + t) with (Z.pos (digits2_pos p) + e) by lia.
    fold t. rewrite Z.sub_diag. cbn [shrZ Z.ltb Z.compare].
    replace (Z.max (e - t) 0) with (e - t) by lia.
    replace (Z.max (t - t) 0) with 0 by lia.
    replace (Z.max (t - e) 0) with 0 by lia. reflexivity.
  - fold t. replace (Z.max (e - t) 0) with 0 by lia.
    replace (Z.max (t - e) 0) with (t - e) by lia. cbn [shl].
    f_equal. destruct (Z.ltb_spec 0 (t - e)); lia.
Qed.

Lemma first_shift_scale p e k :
  0 <= k -> first_shift (shl p k) e = first_shift p (e + k).
Proof.
  intros Hk. rewrite !first_shift_eq. cbv zeta.
  rewrite digits2_pos_shl by lia.
  replace (Z.pos (digits2_pos p) + k + e) with (Z.pos (digits2_pos p) + (e + k)) by lia.
  set (t := fexp prec emax (Z.pos (digits2_pos p) + (e + k))).
  f_equal. rewrite shl_shl by lia. rewrite !shrZ_shl_diff by lia.
  destruct (Z.leb_spec (Z.max (t - e) 0) (k + Z.max (e - t) 0)),
           (Z.leb_spec (Z.max (t - (e + k)) 0) (Z.max (e + k - t) 0)); try lia.
  all: f_equal; first [lia | f_equal; f_equal; lia].
Qed.

Lemma binary_round_first_shift s p e :
  binary_round prec emax s p e
  = let '(mrs', e') := first_shift p e in
    let '(mrs'', e'') :=
      shr_fexp prec emax (round_nearest_even (shr_m mrs') (loc_of_shr_record mrs')) e' loc_Exact in
    match shr_m mrs'' with
    | Z0 => S754_zero s
    | Zpos m => if e'' <=? emax - prec then S754_finite s m e'' else S754_infinity s
    | _ => S754_nan
    end.
Proof.
  unfold binary_round, first_shift, binary_round_aux.
  destruct (shl_align p e _) as [mz ez]. reflexivity.
Qed.

(** Rounding is invariant under moving powers of two between the
    mantissa and the exponent. *)
Lemma binary_normalize_scale c e k :
  0 <= k ->
  binary_normalize prec emax (c * 2 ^ k) e false = binary_normalize prec emax c (e + k) false.
Proof.
  intros Hk. destruct c as [ | p | p].
  - reflexivity.
  - replace (Z.pos p * 2 ^ k) with (Z.pos (shl p k)) by (now apply shl_value).
    cbn [binary_normalize]. rewrite !binary_round_first_shift, first_shift_scale by lia.
    reflexivity.
  - replace (Z.neg p * 2 ^ k) with (Z.neg (shl p k))
      by (rewrite <- !Pos2Z.opp_pos, shl_value by lia; lia).
    cbn [binary_normalize]. rewrite !binary_round_first_shift, first_shift_scale by lia.
    reflexivity.
Qed.

(** The Number of a non-zero integer of magnitude below [2^53]: the
    integer itself, shifted to a 53-bit mantissa. *)
Lemma binary_round_small s p :
  Z.pos p < 2 ^ 53 ->
  let d := Z.pos (digits2_pos p) in
  binary_round prec emax s p 0 = S754_finite s (shl p (53 - d)) (d - 53).
Proof.
  intros Hp d. pose proof (digits2_pos_bounds p) as [Hlo _]. fold d in Hlo.
  assert (Hd : 1 <= d <= 53).
  { split; [subst d; lia | ].
    destruct (Z.le_gt_cases d 53) as [ | Hgt]; [assumption | exfalso].
    assert (2 ^ 53 <= 2 ^ (d - 1)) by (apply Z.pow_le_mono_r; lia). lia. }
  rewrite binary_round_first_shift, first_shift_eq. cbv zeta. fold d.
  replace (fexp prec emax (d + 0)) with (d - 53) by (unfold fexp, emin, prec, emax; lia).
  replace (Z.max (0 - (d - 53)) 0) with (53 - d) by lia.
  replace (Z.max (d - 53 - 0) 0) with 0 by lia.
  cbn [shrZ exact shr_m loc_of_shr_record round_nearest_even].
  unfold shr_fexp. cbn [shr_record_of_loc Zdigits2].
  rewrite digits2_pos_shl by lia. fold d.
  replace (fexp prec emax (d + (53 - d) + (d - 53)) - (d - 53)) with 0
    by (unfold fexp, emin, prec, emax; lia).
  cbn [shr shr_m].
  destruct (Z.leb_spec (d - 53) (emax - prec)) as [ | H]; [reflexivity | ].
  unfold emax, prec in H. lia.
Qed.

Lemma binary_round_small_valid s p :
  Z.pos p < 2 ^ 53 -> valid_binary (binary_round prec emax s p 0) = true.
Proof.
  intros Hp. rewrite binary_round_small by assumption. cbv zeta.
  pose proof (digits2_pos_bounds p) as [Hlo _].
  set (d := Z.pos (digits2_pos p)) in *.
  assert (Hd : 1 <= d <= 53).
  { split; [subst d; lia | ].
    destruct (Z.le_gt_cases d 53) as [ | Hgt]; [assumption | exfalso].
    assert (2 ^ 53 <= 2 ^ (d - 1)) by (apply Z.pow_le_mono_r; lia). lia. }
  cbn [SpecFloat.valid_binary]. unfold bounded, canonical_mantissa.
  rewrite digits2_pos_shl by lia. fold d.
  apply andb_true_iff. split; [apply Z.eqb_eq | apply Z.leb_le];
    unfold fexp, emin, prec, emax; lia.
Qed.

Lemma roundZ_valid z : Z.abs z < 2 ^ 53 -> valid_binary (roundZ z) = true.
Proof.
  destruct z as [ | p | p]; cbn [roundZ binary_normalize Z.abs]; intros H;
    [reflexivity | | ]; now apply binary_round_small_valid.
Qed.

(** Subtraction of integers below [2^53] in magnitude is the rounding of
    the exact difference. *)
Lemma SFsub_integers a b :
  Z.abs a < 2 ^ 53 -> Z.abs b < 2 ^ 53 ->
  SF64sub (roundZ a) (roundZ b) = roundZ (a - b).
Proof.
  intros Ha Hb. unfold roundZ, SF64sub.
  destruct a as [ | p | p], b as [ | q | q]; cbn [binary_normalize Z.abs] in *;
    rewrite ?binary_round_small by assumption; cbv zeta; cbn [SFsub negb];
    try reflexivity;
    try (cbn [Z.sub Z.opp Z.add binary_normalize]; rewrite binary_round_small by assumption;
         reflexivity).
  all: cbn [cond_Zopp].
  all: pose proof (digits2_pos_bounds p) as [Hp _]; pose proof (digits2_pos_bounds q) as [Hq _].
  all: set (dp := Z.pos (digits2_pos p)) in *; set (dq := Z.pos (digits2_pos q)) in *.
  all: assert (Hdp : 1 <= dp <= 53)
         by (split; [subst dp; lia | ];
             destruct (Z.le_gt_cases dp 53) as [ | Hgt]; [assumption | exfalso];
             assert (2 ^ 53 <= 2 ^ (dp - 1)) by (apply Z.pow_le_mono_r; lia); lia).
  all: assert (Hdq : 1 <= dq <= 53)
         by (split; [subst dq; lia | ];
             destruct (Z.le_gt_cases dq 53) as [ | Hgt]; [assumption | exfalso];
             assert (2 ^ 53 <= 2 ^ (dq - 1)) by (apply Z.pow_le_mono_r; lia); lia).
  all: set (ez := Z.min (dp - 53) (dq - 53)).
  all: rewrite !shl_align_shl.
  all: destruct (Z.ltb_spec ez (dp - 53)), (Z.ltb_spec ez (dq - 53)); cbn [fst];
         rewrite ?shl_shl by lia; rewrite ?shl_value by lia.
  all: match goal with
       | |- binary_normalize _ _ ?x ?z false = binary_normalize _ _ ?c 0 false =>
           replace x with (c * 2 ^ (- z)); [rewrite binary_normalize_scale by lia; f_equal; lia | ]
       end.
  all: rewrite ?Z.mul_sub_distr_r, ?Z.mul_add_distr_r, <- ?Pos2Z.opp_pos, ?Z.mul_opp_l.
  all: repeat match goal with
       | |- context [Z.pos ?x * 2 ^ ?u * 2 ^ ?v] =>
           rewrite <- (Z.mul_assoc (Z.pos x) (2 ^ u) (2 ^ v)), <- (Z.pow_add_r 2 u v) by lia
       end.
  all: try (replace (53 - dp + (dp - 53 - ez)) with (- ez) by lia).
  all: try (replace (53 - dq + (dq - 53 - ez)) with (- ez) by lia).
  all: try (replace (53 - dp) with (- ez) by lia).
  all: try (replace (53 - dq) with (- ez) by lia).
  all: try lia.
Qed.

End FloatFacts.

(** ** The same facts on numbers *)

Section NumberOrder.
Import FloatDefs FloatFacts.

Lemma gtb0_positive_value (t : number) :
  gtb t 0 = true -> positive_value (Prim2SF t).
Proof.
  unfold gtb. rewrite ltb_spec. pose proof (Prim2SF_valid t) as Hv.
  change (Prim2SF 0) with (S754_zero false).
  destruct (Prim2SF t) as [ | [ | ] | | [ | ] m e]; unfold SFltb; cbn; try discriminate; trivial.
Qed.

Lemma sub_ltb0 (t1 t2 : number) :
  gtb t1 0 = true -> gtb t2 0 = true ->
  (t1 - t2 <? 0) = (tkey t1 <? tkey t2)%Z.
Proof.
  intros H1 H2. rewrite ltb_spec, sub_spec.
  change (Prim2SF 0) with (S754_zero false).
  apply SFsub_sign; now apply gtb0_positive_value.
Qed.

Lemma sub_gtb0 (t1 t2 : number) :
  gtb t1 0 = true -> gtb t2 0 = true ->
  gtb (t1 - t2) 0 = (tkey t2 <? tkey t1)%Z.
Proof.
  intros H1 H2. unfold gtb. rewrite ltb_spec, sub_spec.
  change (Prim2SF 0) with (S754_zero false).
  apply SFsub_sign; now apply gtb0_positive_value.
Qed.

Lemma ltb_tkey (t1 t2 : number) :
  gtb t1 0 = true -> gtb t2 0 = true ->
  (t1 <? t2) = (tkey t1 <? tkey t2)%Z.
Proof.
  intros H1 H2. rewrite ltb_spec. apply SFltb_key; now apply gtb0_positive_value.
Qed.

Lemma tkey_inj (t1 t2 : number) :
  gtb t1 0 = true -> gtb t2 0 = true -> tkey t1 = tkey t2 -> t1 = t2.
Proof.
  intros H1 H2 Hk.
  pose proof (ltb_tkey t1 t2 H1 H2) as L12. pose proof (ltb_tkey t2 t1 H2 H1) as L21.
  rewrite Hk, Z.ltb_irrefl in L12, L21. rewrite ltb_spec in L12, L21.
  apply gtb0_positive_value in H1, H2. apply Prim2SF_inj.
  destruct (Prim2SF t1) as [ | [ | ] | | [ | ] m1 e1]; cbn in H1; try tauto;
  destruct (Prim2SF t2) as [ | [ | ] | | [ | ] m2 e2]; cbn in H2; try tauto;
  unfold SFltb in L12, L21; cbn [SFcompare] in L12, L21; try discriminate.
  destruct (Z.compare_spec e1 e2) as [He | He | He]; try discriminate L12;
  destruct (Z.compare_spec e2 e1) as [He' | He' | He']; try discriminate L21; try lia.
  subst e2. rewrite Pos.compare_cont_spec in L12, L21. cbn [Pos.switch_Eq] in L12, L21.
  destruct (Pos.compare_spec m1 m2) as [-> | | ]; try discriminate L12; try reflexivity.
  destruct (Pos.compare_spec m2 m1); try discriminate L21; lia.
Qed.

Lemma Prim2SF_ofZ (z : Z) :
  (Z.abs z < 2 ^ 53)%Z -> Prim2SF (ofZ z) = roundZ z.
Proof. intros H. unfold ofZ. apply Prim2SF_SF2Prim. now apply roundZ_valid. Qed.

(** The difference of two integers below [2^53] in magnitude is the
    Number of their exact difference. *)
Lemma sub_ofZ (a b : Z) :
  (Z.abs a < 2 ^ 53)%Z -> (Z.abs b < 2 ^ 53)%Z -> ofZ a - ofZ b = ofZ (a - b).
Proof.
  intros Ha Hb. rewrite <- (SF2Prim_Prim2SF (ofZ a - ofZ b)), sub_spec.
  rewrite !Prim2SF_ofZ, SFsub_integers by assumption. reflexivity.
Qed.

(** The Number of an integer of magnitude at most [2^53] holds that
    integer: nothing is rounded away. *)
Lemma integerValue_ofZ (z : Z) :
  (Z.abs z <= 2 ^ 53)%Z -> integerValue (ofZ z) = Some z.
Proof.
  intros Hz.
  destruct (Z.eq_dec (Z.abs z) (2 ^ 53)) as [Heq | Hne].
  { assert (Hc : z = 9007199254740992%Z \/ z = (-9007199254740992)%Z) by lia.
    destruct Hc as [-> | ->]; vm_compute; reflexivity. }
  assert (Hlt : (Z.abs z < 2 ^ 53)%Z) by lia.
  unfold integerValue. rewrite Prim2SF_ofZ by assumption. unfold roundZ.
  destruct z as [ | p | p]; [reflexivity | | ];
    cbn [binary_normalize Z.abs] in *; rewrite binary_round_small by assumption; cbv zeta;
    pose proof (digits2_pos_bounds p) as [Hlo _];
    set (d := Z.pos (digits2_pos p)) in *;
    assert (Hd : (1 <= d <= 53)%Z)
      by (split; [subst d; lia | ];
          destruct (Z.le_gt_cases d 53) as [ | Hgt]; [assumption | exfalso];
          assert (2 ^ 53 <= 2 ^ (d - 1))%Z by (apply Z.pow_le_mono_r; lia); lia);
    rewrite shl_value by lia;
    assert (Hpow : (0 < 2 ^ (53 - d))%Z) by (apply Z.pow_pos_nonneg; lia).
  - destruct (Z.leb_spec 0 (d - 53)) as [Hge | Hneg].
    + replace (53 - d)%Z with 0%Z by lia. replace (d - 53)%Z with 0%Z by lia.
      cbn [cond_Zopp]. f_equal. lia.
    + replace (- (d - 53))%Z with (53 - d)%Z by lia.
      rewrite Z.mod_mul, Z.div_mul by lia. reflexivity.
  - destruct (Z.leb_spec 0 (d - 53)) as [Hge | Hneg].
    + replace (53 - d)%Z with 0%Z by lia. replace (d - 53)%Z with 0%Z by lia.
      cbn [cond_Zopp]. f_equal. lia.
    + replace (- (d - 53))%Z with (53 - d)%Z by lia.
      rewrite Z.mod_mul, Z.div_mul by lia. reflexivity.
Qed.

End NumberOrder.

(* ================================================================== *)
(** * The store and the sort *)
(* ================================================================== *)

Section StoreFacts.
Context {E : Type}.

Lemma nth_error_snoc (h : Heap E) (xs : list E) :
  nth_error (h ++ [xs]) (List.length h) = Some xs.
Proof. rewrite nth_error_app2, Nat.sub_diag by lia. reflexivity. Qed.

Lemma update_snoc (h : Heap E) (xs ys : list E) :
  update (h ++ [xs]) (List.length h) ys = h ++ [ys].
Proof. induction h as [ | zs h IH]; cbn; [reflexivity | now rewrite IH]. Qed.

Lemma nth_error_snoc_old (h : Heap E) (xs : list E) (a : ref) :
  nth_error h a <> None -> nth_error (h ++ [xs]) a = nth_error h a.
Proof. intros H. apply nth_error_app1. now apply nth_error_Some. Qed.

Lemma sortInsert_perm (cmp : E -> E -> number) (x : E) (l : list E) :
  Permutation (sortInsert cmp x l) (x :: l).
Proof.
  induction l as [ | y l IH]; cbn; [reflexivity | ].
  destruct (cmp y x <? 0); [ | reflexivity].
  rewrite IH. apply perm_swap.
Qed.

Lemma stableSort_perm (cmp : E -> E -> number) (l : list E) :
  Permutation (stableSort cmp l) l.
Proof.
  induction l as [ | x l IH]; cbn; [reflexivity | ].
  rewrite sortInsert_perm. now constructor.
Qed.

Lemma stableSort_length (cmp : E -> E -> number) (l : list E) :
  List.length (stableSort cmp l) = List.length l.
Proof. apply Permutation_length, stableSort_perm. Qed.

Lemma stableSort_In (cmp : E -> E -> number) (l : list E) (x : E) :
  In x (stableSort cmp l) <-> In x l.
Proof.
  split; apply Permutation_in; [ | symmetry]; apply stableSort_perm.
Qed.

(** When the comparison function agrees with an integer key on the
    elements, the result is sorted by that key. *)
Section Keyed.
Variable cmp : E -> E -> number.
Variable k : E -> Z.

Let le (a b : E) : Prop := (k a <= k b)%Z.

Lemma sortInsert_sorted (x : E) (l : list E) :
  (forall y, In y l -> (cmp y x <? 0) = (k y <? k x)%Z) ->
  StronglySorted le l -> StronglySorted le (sortInsert cmp x l).
Proof.
  induction l as [ | y l IH]; intros Hc Hs; cbn.
  - repeat constructor.
  - inversion Hs as [ | ? ? Hs' Hall]; subst.
    rewrite (Hc y (or_introl eq_refl)).
    destruct (Z.ltb_spec (k y) (k x)) as [Hlt | Hge].
    + constructor.
      * apply IH; [intros z Hz; apply Hc; now right | exact Hs'].
      * apply Forall_forall. intros z Hz.
        apply (Permutation_in _ (sortInsert_perm cmp x l)) in Hz.
        destruct Hz as [<- | Hz]; [unfold le; lia | ].
        rewrite Forall_forall in Hall. now apply Hall.
    + constructor; [exact Hs | ].
      constructor; [exact Hge | ].
      rewrite Forall_forall in Hall |- *. intros z Hz.
      specialize (Hall z Hz). unfold le in *. lia.
Qed.

Lemma stableSort_sorted (l : list E) :
  (forall a b, In a l -> In b l -> (cmp a b <? 0) = (k a <? k b)%Z) ->
  StronglySorted le (stableSort cmp l).
Proof.
  induction l as [ | x l IH]; intros Hc; cbn; [constructor | ].
  apply sortInsert_sorted.
  - intros y Hy. apply stableSort_In in Hy. apply Hc; [now right | now left].
  - apply IH. intros a b Ha Hb. apply Hc; now right.
Qed.

(** Two sorted arrangements of the same elements are equal when the
    key tells the elements apart. *)
Lemma sorted_perm_unique (l1 l2 : list E) :
  StronglySorted le l1 -> StronglySorted le l2 -> Permutation l1 l2 ->
  (forall a b, In a l1 -> In b l1 -> k a = k b -> a = b) ->
  l1 = l2.
Proof.
  revert l2. induction l1 as [ | a l1 IH]; intros l2 H1 H2 Hp Hinj.
  - apply Permutation_nil in Hp. now subst.
  - destruct l2 as [ | b l2].
    + symmetry in Hp. now apply Permutation_nil in Hp.
    + inversion H1 as [ | ? ? H1' Ha]; subst. inversion H2 as [ | ? ? H2' Hb]; subst.
      rewrite Forall_forall in Ha, Hb.
      assert (Hab : a = b).
      { assert (Hain : In a (b :: l2)) by (apply (Permutation_in _ Hp); now left).
        assert (Hbin : In b (a :: l1))
          by (apply (Permutation_in _ (Permutation_sym Hp)); now left).
        destruct Hain as [-> | Hain]; [reflexivity | ].
        destruct Hbin as [-> | Hbin]; [reflexivity | ].
        apply Hinj; [now left | now right | ].
        specialize (Ha b Hbin). specialize (Hb a Hain). unfold le in *. lia. }
      subst b. f_equal.
      apply IH; trivial.
      * now apply Permutation_cons_inv in Hp.
      * intros x y Hx Hy. apply Hinj; now right.
Qed.
End Keyed.

End StoreFacts.

(* ================================================================== *)
(** * The engine, run on a store *)
(* ================================================================== *)

Section EngineFacts.
Variable Math_pow : number -> number -> number.

Lemma nth_error_last (s : list Observation) : forall x d,
  nth_error (x :: s) (List.length s) = Some (last (x :: s) d).
Proof.
  induction s as [ | y s IH]; intros x d; [reflexivity | ].
  cbn [List.length nth_error]. rewrite (IH y d). reflexivity.
Qed.

Lemma nth_error_last_index (x : Observation) (s : list Observation) :
  (if (Z.of_nat (List.length (x :: s)) - 1 <? 0)%Z then None
   else nth_error (x :: s) (Z.to_nat (Z.of_nat (List.length (x :: s)) - 1)))
  = Some (last (x :: s) x).
Proof.
  destruct (Z.ltb_spec (Z.of_nat (List.length (x :: s)) - 1) 0) as [H | _].
  - cbn [List.length] in H. lia.
  - replace (Z.to_nat (Z.of_nat (List.length (x :: s)) - 1)) with (List.length s)
      by (cbn [List.length]; lia).
    apply nth_error_last.
Qed.

(** The engine filters into a fresh array, sorts that array in place and
    computes [twapOf] from it. *)
Lemma calculateTWAP_run (poolState : PoolState) (st : ObservationState)
    (h : Heap Observation) (l : list Observation) :
  nth_error h (observations_data st) = Some l ->
  calculateTWAP Math_pow poolState st h
  = (twapOf Math_pow poolState (sortedValid l), h ++ [sortedValid l]).
Proof.
  intros Hl. unfold calculateTWAP, bind at 1, Array_filter. rewrite Hl.
  unfold bind at 1, Array_sort. rewrite nth_error_snoc, update_snoc.
  change (stableSort _ (filter _ l)) with (sortedValid l).
  set (s := sortedValid l).
  unfold bind at 1, Array_length. rewrite nth_error_snoc.
  unfold bind at 1, console_log, ret.
  unfold bind at 1, Array_get. rewrite nth_error_snoc.
  destruct s as [ | x s'] eqn:Hs.
  - reflexivity.
  - cbn [nth_error Z.ltb Z.compare Z.to_nat prop].
    unfold bind at 1, ret. unfold bind at 1. rewrite nth_error_snoc.
    rewrite nth_error_last_index. cbn [prop].
    unfold bind at 1, ret. unfold bind at 1.
    unfold twapOf.
    destruct (List.length (x :: s') <? 2)%nat; [reflexivity | ].
    unfold bind at 1. rewrite nth_error_snoc. cbn [nth_error Z.ltb Z.compare Z.to_nat].
    unfold bind at 1. rewrite nth_error_snoc, nth_error_last_index. cbn [prop].
    unfold bind, ret, Array_elements, Array_length. rewrite !nth_error_snoc.
    reflexivity.
Qed.

End EngineFacts.

(* ================================================================== *)
(** * The scorer *)
(* ================================================================== *)

Lemma ltb_leb_false (x y : number) : (x <=? y) = true -> (y <? x) = false.
Proof.
  rewrite leb_spec, ltb_spec. unfold SFleb, SFltb.
  destruct (Prim2SF x) as [ | [ | ] | | [ | ] mx ex], (Prim2SF y) as [ | [ | ] | | [ | ] my ey];
    cbn [SFcompare]; try reflexivity; try discriminate;
    rewrite !Pos.compare_cont_spec; cbn [Pos.switch_Eq];
    destruct (Z.compare_spec ex ey), (Z.compare_spec ey ex); try lia;
    try reflexivity; try discriminate;
    destruct (Pos.compare_spec mx my), (Pos.compare_spec my mx); try lia;
    cbn; try reflexivity; discriminate.
Qed.

(** The scorer as a function of its five conditions. *)
Lemma detectManipulation_conditions (priceDiffPercent timePeriodHours : number)
    (observations : list Observation) :
  detectManipulation priceDiffPercent timePeriodHours observations =
  let '(factors, riskLevel, warning) :=
    if gtb priceDiffPercent 50 then
      ([EXTREME_PRICE_DIFF], CRITICAL, specWarning [EXTREME_PRICE_DIFF])
    else if gtb priceDiffPercent 30 then
      ([HIGH_PRICE_DIFF], HIGH, specWarning [HIGH_PRICE_DIFF])
    else if gtb priceDiffPercent 15 then ([MODERATE_PRICE_DIFF], MEDIUM, None)
    else ([], LOW, None) in
  let '(factors, riskLevel, warning) :=
    if (timePeriodHours <? 1) && gtb priceDiffPercent 20 then
      (factors ++ [RAPID_PRICE_CHANGE],
       (if RiskLevel_eqb riskLevel LOW then HIGH else riskLevel),
       orElse warning "Rapid price change in short timeframe - possible manipulation")
    else (factors, riskLevel, warning) in
  let '(factors, riskLevel) :=
    if tickSpike observations then
      (factors ++ [TICK_SPIKE],
       (if RiskLevel_eqb riskLevel LOW || RiskLevel_eqb riskLevel MEDIUM then HIGH else riskLevel))
    else (factors, riskLevel) in
  let '(factors, warning) :=
    if timePeriodHours <? 0.1 then
      (factors ++ [INSUFFICIENT_DATA],
       orElse warning "Very short observation period - results may not be reliable")
    else (factors, warning) in
  let '(factors, riskLevel) :=
    if repetitivePatterns observations then
      (factors ++ [REPETITIVE_PATTERNS],
       (if RiskLevel_eqb riskLevel LOW then MEDIUM else riskLevel))
    else (factors, riskLevel) in
  let factors := if (List.length factors =? 0)%nat then factors ++ [NORMAL_MOVEMENT] else factors in
  {| level := riskLevel;
     factors := factors;
     warning := warning;
     confidence := calculateConfidence factors timePeriodHours;
     recommendations := getRecommendations riskLevel factors |}.
Proof. reflexivity. Qed.

(** Splits the scorer into the cases of its five conditions. *)
Ltac scorer_cases p t obs :=
  rewrite (detectManipulation_conditions p t obs);
  destruct (gtb p 50) eqn:?, (gtb p 30) eqn:?, (gtb p 15) eqn:?,
           ((t <? 1) && gtb p 20) eqn:?, (tickSpike obs) eqn:?,
           (t <? 0.1) eqn:?, (repetitivePatterns obs) eqn:?;
  cbn [app orElse RiskLevel_eqb orb List.length Nat.eqb level factors warning
       specWarning includes existsb Factor_eqb].

(** The confidence is the clamped integer sum of the specification. *)
Lemma calculateConfidence_spec (factors : list Factor) (timePeriodHours : number) :
  calculateConfidence factors timePeriodHours
  = ofZ (clamp 0 100 (specConfidenceSum factors timePeriodHours)).
Proof.
  unfold calculateConfidence, specConfidenceSum.
  destruct (gtb timePeriodHours 1), (gtb timePeriodHours 6),
           (includes factors NORMAL_MOVEMENT), (includes factors EXTREME_PRICE_DIFF),
           (includes factors INSUFFICIENT_DATA); vm_compute; reflexivity.
Qed.

(** C7: the confidence is base 50, plus 20 when [timePeriodHours > 1],
    plus 15 when [timePeriodHours > 6], plus 15 when the factors include
    NORMAL_MOVEMENT, plus 25 when they include EXTREME_PRICE_DIFF, minus
    30 when they include INSUFFICIENT_DATA, the sum clamped to [0, 100]:
    it is always an integer between 0 and 100. *)
Theorem C7_confidence_clamped_sum (factors : list Factor) (timePeriodHours : number) :
  let n := clamp 0 100 (specConfidenceSum factors timePeriodHours) in
  calculateConfidence factors timePeriodHours = ofZ n
  /\ (0 <= n <= 100)%Z
  /\ (0 <=? calculateConfidence factors timePeriodHours) = true
  /\ (calculateConfidence factors timePeriodHours <=? 100) = true.
Proof.
  cbv zeta. split; [apply calculateConfidence_spec | ].
  split; [unfold clamp; lia | ].
  rewrite calculateConfidence_spec. unfold specConfidenceSum.
  destruct (gtb timePeriodHours 1), (gtb timePeriodHours 6),
           (includes factors NORMAL_MOVEMENT), (includes factors EXTREME_PRICE_DIFF),
           (includes factors INSUFFICIENT_DATA); vm_compute; split; reflexivity.
Qed.

(** C8: the warning is the message of the first of EXTREME_PRICE_DIFF,
    HIGH_PRICE_DIFF, RAPID_PRICE_CHANGE and INSUFFICIENT_DATA among the
    factors of the report; a later check never replaces an earlier
    message, and the warning is null when none of the four is present. *)
Theorem C8_warning_priority (priceDiffPercent timePeriodHours : number)
    (observations : list Observation) :
  let report := detectManipulation priceDiffPercent timePeriodHours observations in
  report.(warning) = specWarning report.(factors).
Proof.
  cbv zeta. scorer_cases priceDiffPercent timePeriodHours observations; reflexivity.
Qed.

(** C6: a price difference above 50 adds EXTREME_PRICE_DIFF and makes the
    level CRITICAL; one in (30, 50] adds HIGH_PRICE_DIFF and makes the
    level at least HIGH; one in (15, 30] adds MODERATE_PRICE_DIFF and
    makes the level at least MEDIUM; at 60 the report is CRITICAL with
    EXTREME_PRICE_DIFF and its confidence counts the +25 adjustment. *)
Theorem C6_price_difference_tiers (priceDiffPercent timePeriodHours : number)
    (observations : list Observation) :
  let report := detectManipulation priceDiffPercent timePeriodHours observations in
  (gtb priceDiffPercent 50 = true ->
     In EXTREME_PRICE_DIFF report.(factors) /\ report.(level) = CRITICAL)
  /\ (gtb priceDiffPercent 30 = true -> (priceDiffPercent <=? 50) = true ->
     In HIGH_PRICE_DIFF report.(factors)
     /\ (levelRank HIGH <= levelRank report.(level))%nat)
  /\ (gtb priceDiffPercent 15 = true -> (priceDiffPercent <=? 30) = true ->
     In MODERATE_PRICE_DIFF report.(factors)
     /\ (levelRank MEDIUM <= levelRank report.(level))%nat)
  /\ (priceDiffPercent = 60 ->
     report.(level) = CRITICAL
     /\ In EXTREME_PRICE_DIFF report.(factors)
     /\ report.(confidence)
        = ofZ (clamp 0 100
                 (50 + (if gtb timePeriodHours 1%float then 20 else 0)
                     + (if gtb timePeriodHours 6%float then 15 else 0)
                     + 25
                     - (if timePeriodHours <? 0.1 then 30 else 0)))).
Proof.
  cbv zeta. split; [ | split; [ | split]].
  - intros H50. scorer_cases priceDiffPercent timePeriodHours observations;
      try discriminate; cbn; tauto.
  - intros H30 H50. apply ltb_leb_false in H50. fold (gtb priceDiffPercent 50) in H50.
    revert H30 H50. scorer_cases priceDiffPercent timePeriodHours observations;
      intros; try discriminate; cbn; (split; [tauto | lia]).
  - intros H15 H30. apply ltb_leb_false in H30. fold (gtb priceDiffPercent 30) in H30.
    assert (H50 : gtb priceDiffPercent 50 = false).
    { destruct (gtb priceDiffPercent 50) eqn:E; [ | reflexivity].
      revert E H30. unfold gtb. rewrite !ltb_spec.
      change (Prim2SF 50) with (S754_finite false 7036874417766400 (-47)).
      change (Prim2SF 30) with (S754_finite false 8444249301319680 (-48)).
      unfold SFltb.
      destruct (Prim2SF priceDiffPercent) as [ | [ | ] | | [ | ] m e];
        cbn [SFcompare]; try discriminate.
      destruct (Z.compare_spec (-47) e), (Z.compare_spec (-48) e); try lia; discriminate. }
    revert H15 H30 H50. scorer_cases priceDiffPercent timePeriodHours observations;
      intros; try discriminate; cbn; (split; [tauto | lia]).
  - intros ->. rewrite (detectManipulation_conditions 60 timePeriodHours observations).
    change (gtb 60 50) with true. cbv iota.
    destruct ((timePeriodHours <? 1) && gtb 60 20), (tickSpike observations),
             (timePeriodHours <? 0.1), (repetitivePatterns observations);
      cbn [app List.length Nat.eqb confidence level factors orElse RiskLevel_eqb orb];
      (split; [reflexivity | split; [cbn; tauto | ]]);
      rewrite calculateConfidence_spec; unfold specConfidenceSum;
      cbn [includes existsb Factor_eqb orb]; do 2 f_equal; lia.
Qed.

Lemma tickMovements_skipped (pairs : list (Observation * Observation)) :
  (forall prev cur, In (prev, cur) pairs ->
     gtb (cur.(block_timestamp) - prev.(block_timestamp)) 0 = false) ->
  forall tickMovements,
  fold_left
    (fun tickMovements '(prev, cur) =>
       let timeDiff := cur.(block_timestamp) - prev.(block_timestamp) in
       let tickDiff := parseInt cur.(tick_cumulative) - parseInt prev.(tick_cumulative) in
       if gtb timeDiff 0 then tickMovements ++ [tickDiff / timeDiff] else tickMovements)
    pairs tickMovements = tickMovements.
Proof.
  induction pairs as [ | [prev cur] pairs IH]; intros H acc; cbn [fold_left]; [reflexivity | ].
  cbv zeta. rewrite (H prev cur (or_introl eq_refl)).
  apply IH. intros p c Hin. apply H. now right.
Qed.

(** C9: when no consecutive pair of observations has a positive time
    difference the velocity list is empty, the spike test is false on
    it, and the report, which is returned all the same, does not carry
    TICK_SPIKE. *)
Theorem C9_no_positive_delta_no_spike (priceDiffPercent timePeriodHours : number)
    (observations : list Observation) :
  (forall prev cur, In (prev, cur) (consecutive observations) ->
     gtb (cur.(block_timestamp) - prev.(block_timestamp)) 0 = false) ->
  tickMovementsOf observations = []
  /\ tickSpike observations = false
  /\ exists report,
       detectManipulation priceDiffPercent timePeriodHours observations = report
       /\ ~ In TICK_SPIKE report.(factors).
Proof.
  intros H.
  assert (Hm : tickMovementsOf observations = [])
    by (unfold tickMovementsOf; now apply tickMovements_skipped).
  assert (Hs : tickSpike observations = false)
    by (unfold tickSpike; rewrite Hm; vm_compute; reflexivity).
  repeat split; trivial.
  eexists. split; [reflexivity | ].
  rewrite (detectManipulation_conditions priceDiffPercent timePeriodHours observations), Hs.
  destruct (gtb priceDiffPercent 50), (gtb priceDiffPercent 30), (gtb priceDiffPercent 15),
           ((timePeriodHours <? 1) && gtb priceDiffPercent 20),
           (timePeriodHours <? 0.1), (repetitivePatterns observations);
    cbn; intuition discriminate.
Qed.

Lemma C9_witness :
  let observations :=
    [ {| block_timestamp := 1755188942; tick_cumulative := "-576731966831" |};
      {| block_timestamp := 1755187080; tick_cumulative := "-576701345305" |} ] in
  tickMovementsOf observations = []
  /\ tickSpike observations = false
  /\ exists report,
       detectManipulation 0 1 observations = report /\ ~ In TICK_SPIKE report.(factors).
Proof.
  apply C9_no_positive_delta_no_spike.
  intros prev cur [Hin | []]. inversion Hin; subst. vm_compute. reflexivity.
Defined.

(* ================================================================== *)
(** * Divisions by zero *)
(* ================================================================== *)

Lemma sub_self_zero_or_nan (t : number) :
  Prim2SF (t - t) = S754_zero false \/ Prim2SF (t - t) = S754_nan.
Proof.
  rewrite sub_spec. unfold SF64sub.
  destruct (Prim2SF t) as [[ | ] | [ | ] | | s m e]; cbn [SFsub]; auto.
  rewrite Z.sub_diag. now left.
Qed.

Lemma eqb_zero (x : number) :
  (x =? 0) = true -> exists s, Prim2SF x = S754_zero s.
Proof.
  rewrite eqb_spec. change (Prim2SF 0) with (S754_zero false). unfold SFeqb.
  destruct (Prim2SF x) as [s | [ | ] | | [ | ] m e]; cbn [SFcompare]; try discriminate.
  intros _. now exists s.
Qed.

Lemma div_not_finite (x y : number) :
  (exists s, Prim2SF y = S754_zero s) \/ Prim2SF y = S754_nan ->
  isFinite (x / y) = false.
Proof.
  unfold isFinite. rewrite div_spec. unfold SF64div.
  intros [[s ->] | ->]; destruct (Prim2SF x) as [ | | | ? ? ?]; reflexivity.
Qed.

Lemma mul_100_not_finite (x : number) :
  isFinite x = false -> isFinite (x * 100) = false.
Proof.
  unfold isFinite. rewrite mul_spec. unfold SF64mul.
  change (Prim2SF 100) with (S754_finite false 7036874417766400 (-46)).
  destruct (Prim2SF x) as [ | | | ? ? ?]; try discriminate; reflexivity.
Qed.

Lemma abs_not_finite (x : number) :
  isFinite x = false -> isFinite (Math_abs x) = false.
Proof.
  unfold isFinite, Math_abs. rewrite abs_spec.
  destruct (Prim2SF x) as [ | | | ? ? ?]; try discriminate; reflexivity.
Qed.

(* ================================================================== *)
(** * The engine: the valid observations, sorted *)
(* ================================================================== *)

(** On valid observations the comparison function of the engine orders
    by the key of the timestamp: it is consistent. *)
Lemma byTimestamp_key (a b : Observation) :
  validObservation a = true -> validObservation b = true ->
  (byTimestamp a b <? 0)
  = (tkey a.(block_timestamp) <? tkey b.(block_timestamp))%Z.
Proof. intros Ha Hb. now apply sub_ltb0. Qed.

Lemma sortedValid_In (o : Observation) (l : list Observation) :
  In o (sortedValid l) <-> In o l /\ validObservation o = true.
Proof. unfold sortedValid. rewrite stableSort_In. apply filter_In. Qed.

Lemma sortedValid_length (l : list Observation) :
  List.length (sortedValid l) = List.length (filter validObservation l).
Proof. apply stableSort_length. Qed.

Lemma sortedValid_sorted (l : list Observation) :
  StronglySorted
    (fun a b => (tkey a.(block_timestamp) <= tkey b.(block_timestamp))%Z)
    (sortedValid l).
Proof.
  apply (stableSort_sorted byTimestamp (fun o => tkey o.(block_timestamp))).
  intros a b Ha Hb. apply filter_In in Ha, Hb. now apply byTimestamp_key.
Qed.

Lemma filter_perm (f : Observation -> bool) (l l' : list Observation) :
  Permutation l l' -> Permutation (filter f l) (filter f l').
Proof.
  induction 1 as [ | x l l' _ IH | x y l | l l' l'' _ IH1 _ IH2]; cbn.
  - constructor.
  - destruct (f x); [now constructor | exact IH].
  - destruct (f x), (f y); try reflexivity. apply perm_swap.
  - now transitivity (filter f l').
Qed.

(** Reordering the input does not change the sorted array when valid
    observations with the same timestamp are equal. *)
Lemma sortedValid_perm (l l' : list Observation) :
  Permutation l l' ->
  (forall a b, In a l -> In b l -> validObservation a = true ->
     a.(block_timestamp) = b.(block_timestamp) -> a = b) ->
  sortedValid l = sortedValid l'.
Proof.
  intros Hp Hties.
  apply (sorted_perm_unique (fun o => tkey o.(block_timestamp))).
  - apply sortedValid_sorted.
  - apply sortedValid_sorted.
  - unfold sortedValid. rewrite !stableSort_perm. now apply filter_perm.
  - intros a b Ha Hb Hk. apply sortedValid_In in Ha as [Ha Va], Hb as [Hb Vb].
    apply Hties; trivial. now apply tkey_inj.
Qed.

(* ================================================================== *)
(** * The engine: the claims *)
(* ================================================================== *)

Lemma calculateTWAPCLI_eq : calculateTWAPCLI = calculateTWAP.
Proof. reflexivity. Qed.

Lemma calculateTWAP_no_array (Math_pow : number -> number -> number)
    (poolState : PoolState) (st : ObservationState) (h : Heap Observation) :
  nth_error h (observations_data st) = None ->
  calculateTWAP Math_pow poolState st h = (Throw (notAnArray), h).
Proof.
  intros Hl. unfold calculateTWAP, bind at 1, Array_filter. now rewrite Hl.
Qed.

(** C10: the engine leaves the caller's array as it was, whether it
    returns or throws: [filter] allocates a fresh array and [sort] is
    applied to that array only. *)
Theorem C10_caller_array_unchanged (Math_pow : number -> number -> number)
    (poolState : PoolState) (observationState : ObservationState)
    (h : Heap Observation) :
  nth_error (snd (calculateTWAP Math_pow poolState observationState h))
            (observations_data observationState)
  = nth_error h (observations_data observationState)
  /\ nth_error (snd (calculateTWAPCLI Math_pow poolState observationState h))
               (observations_data observationState)
     = nth_error h (observations_data observationState).
Proof.
  rewrite calculateTWAPCLI_eq.
  destruct (nth_error h (observations_data observationState)) as [l | ] eqn:Hl.
  - rewrite (calculateTWAP_run Math_pow poolState observationState h l Hl). cbn [snd].
    rewrite nth_error_snoc_old, Hl by (rewrite Hl; discriminate). now split.
  - rewrite (calculateTWAP_no_array Math_pow poolState observationState h Hl). cbn [snd].
    now split.
Qed.

(** C3, the code where it departs from the claim: with no valid
    observation the engine does not reach its length check; it throws the
    TypeError of the time-range log line, which reads
    [validObservations[0].block_timestamp] first, and not the error
    "Need at least 2 observations". *)
Theorem C3_no_valid_observation_TypeError (Math_pow : number -> number -> number)
    (poolState : PoolState) (observationState : ObservationState)
    (h : Heap Observation) (l : list Observation) :
  nth_error h (observations_data observationState) = Some l ->
  filter validObservation l = [] ->
  fst (calculateTWAP Math_pow poolState observationState h)
  = Throw (TypeError "Cannot read properties of undefined")
  /\ fst (calculateTWAP Math_pow poolState observationState h) <> Throw insufficientData.
Proof.
  intros Hl Hf. rewrite (calculateTWAP_run Math_pow poolState observationState h l Hl).
  unfold sortedValid. rewrite Hf. cbn. split; [reflexivity | discriminate].
Qed.

Lemma C3_witness :
  fst (calculateTWAP examplePow
         {| tick_current := -16520; mint_decimals_0 := 9; mint_decimals_1 := 6 |}
         {| observations_data := 0%nat |}
         [[ {| block_timestamp := 0; tick_cumulative := "0" |} ]])
  = Throw (TypeError "Cannot read properties of undefined")
  /\ fst (calculateTWAP examplePow
         {| tick_current := -16520; mint_decimals_0 := 9; mint_decimals_1 := 6 |}
         {| observations_data := 0%nat |}
         [[ {| block_timestamp := 0; tick_cumulative := "0" |} ]])
     <> Throw insufficientData.
Proof.
  apply (C3_no_valid_observation_TypeError examplePow _ _ _
           [ {| block_timestamp := 0; tick_cumulative := "0" |} ]); reflexivity.
Defined.

(** With exactly one valid observation the length check is reached and
    the engine throws its own error. *)
Lemma one_valid_observation_insufficientData (Math_pow : number -> number -> number)
    (poolState : PoolState) (observationState : ObservationState)
    (h : Heap Observation) (l : list Observation) :
  nth_error h (observations_data observationState) = Some l ->
  List.length (filter validObservation l) = 1%nat ->
  fst (calculateTWAP Math_pow poolState observationState h) = Throw insufficientData.
Proof.
  intros Hl Hf. rewrite (calculateTWAP_run Math_pow poolState observationState h l Hl).
  pose proof (sortedValid_length l) as Hlen. rewrite Hf in Hlen.
  destruct (sortedValid l) as [ | x [ | y s]]; try discriminate. reflexivity.
Qed.

(** The engine on at least two valid observations returns the record
    computed from the first and the last element of the sorted array. *)
Lemma twapOf_two (Math_pow : number -> number -> number) (poolState : PoolState)
    (s : list Observation) :
  (2 <= List.length s)%nat ->
  exists oldestObs r,
    hd_error s = Some oldestObs
    /\ twapOf Math_pow poolState s = Normal r
    /\ r.(twapTick)
       = (parseInt (last s oldestObs).(tick_cumulative) - parseInt oldestObs.(tick_cumulative))
         / ((last s oldestObs).(block_timestamp) - oldestObs.(block_timestamp))
    /\ r.(currentPrice)
       = Math_pow 1.0001 poolState.(tick_current)
         * Math_pow 10 (poolState.(mint_decimals_1) - poolState.(mint_decimals_0))
    /\ r.(priceDifferencePercent)
       = Math_abs ((r.(twapPrice) - r.(currentPrice)) / r.(currentPrice) * 100).
Proof.
  intros Hlen. destruct s as [ | x s]; [cbn in Hlen; lia | ].
  exists x. unfold twapOf.
  destruct (Nat.ltb_spec (List.length (x :: s)) 2) as [ | _]; [lia | ].
  eexists. repeat split.
Qed.

(** C2, the code where it departs from the claim: when the oldest and
    the newest valid observation (the first and the last of the sorted
    array) carry the same timestamp, the time difference is [+0] (or NaN,
    at [Infinity]), nothing checks it, and the engine returns a record
    whose [twapTick] is NaN or an infinity instead of failing. *)
Theorem C2_equal_timestamps_not_finite (Math_pow : number -> number -> number)
    (poolState : PoolState) (observationState : ObservationState)
    (h : Heap Observation) (l : list Observation) (oldestObs newestObs : Observation) :
  nth_error h (observations_data observationState) = Some l ->
  (2 <= List.length (filter validObservation l))%nat ->
  hd_error (sortedValid l) = Some oldestObs ->
  last (sortedValid l) oldestObs = newestObs ->
  newestObs.(block_timestamp) = oldestObs.(block_timestamp) ->
  exists r,
    fst (calculateTWAP Math_pow poolState observationState h) = Normal r
    /\ isFinite r.(twapTick) = false.
Proof.
  intros Hl Hlen Hold Hnew Ht.
  rewrite (calculateTWAP_run Math_pow poolState observationState h l Hl). cbn [fst].
  rewrite <- sortedValid_length in Hlen.
  destruct (twapOf_two Math_pow poolState (sortedValid l) Hlen)
    as (o & r & Ho & Hr & Htick & _).
  exists r. split; [exact Hr | ].
  rewrite Hold in Ho. injection Ho as <-.
  rewrite Htick, Hnew, Ht.
  apply div_not_finite.
  destruct (sub_self_zero_or_nan (block_timestamp oldestObs)) as [-> | ->];
    [left; now exists false | now right].
Qed.

Lemma C2_witness :
  exists r,
    fst (calculateTWAP examplePow
           {| tick_current := -16520; mint_decimals_0 := 9; mint_decimals_1 := 6 |}
           {| observations_data := 0%nat |}
           [[ {| block_timestamp := 1755187080; tick_cumulative := "-576701345305" |};
              {| block_timestamp := 1755187080; tick_cumulative := "-576701345400" |} ]])
    = Normal r
    /\ isFinite r.(twapTick) = false.
Proof.
  apply (C2_equal_timestamps_not_finite examplePow _ _ _
           [ {| block_timestamp := 1755187080; tick_cumulative := "-576701345305" |};
             {| block_timestamp := 1755187080; tick_cumulative := "-576701345400" |} ]
           {| block_timestamp := 1755187080; tick_cumulative := "-576701345305" |}
           {| block_timestamp := 1755187080; tick_cumulative := "-576701345400" |}).
  - reflexivity.
  - vm_compute. lia.
  - reflexivity.
  - reflexivity.
  - reflexivity.
Defined.

(** C5, the code where it departs from the claim: when the computed
    current price is zero nothing checks the divisor, and the engine
    returns a record whose [priceDifferencePercent] is NaN or [Infinity]
    instead of failing. *)
Theorem C5_zero_current_price_not_finite (Math_pow : number -> number -> number)
    (poolState : PoolState) (observationState : ObservationState)
    (h : Heap Observation) (l : list Observation) :
  nth_error h (observations_data observationState) = Some l ->
  (2 <= List.length (filter validObservation l))%nat ->
  (Math_pow 1.0001 poolState.(tick_current)
   * Math_pow 10 (poolState.(mint_decimals_1) - poolState.(mint_decimals_0)) =? 0) = true ->
  exists r,
    fst (calculateTWAP Math_pow poolState observationState h) = Normal r
    /\ (r.(currentPrice) =? 0) = true
    /\ isFinite r.(priceDifferencePercent) = false.
Proof.
  intros Hl Hlen Hzero.
  rewrite (calculateTWAP_run Math_pow poolState observationState h l Hl). cbn [fst].
  rewrite <- sortedValid_length in Hlen.
  destruct (twapOf_two Math_pow poolState (sortedValid l) Hlen)
    as (o & r & _ & Hr & _ & Hcur & Hpct).
  exists r. split; [exact Hr | ]. rewrite <- Hcur in Hzero. split; [exact Hzero | ].
  rewrite Hpct. apply abs_not_finite, mul_100_not_finite, div_not_finite.
  left. now apply eqb_zero.
Qed.

Lemma C5_witness :
  exists r,
    fst (calculateTWAP examplePow
           {| tick_current := -8000000; mint_decimals_0 := 9; mint_decimals_1 := 6 |}
           {| observations_data := 0%nat |}
           [[ {| block_timestamp := 1755187080; tick_cumulative := "-576701345305" |};
              {| block_timestamp := 1755188942; tick_cumulative := "-576731966831" |} ]])
    = Normal r
    /\ (r.(currentPrice) =? 0) = true
    /\ isFinite r.(priceDifferencePercent) = false.
Proof.
  apply (C5_zero_current_price_not_finite examplePow _ _ _
           [ {| block_timestamp := 1755187080; tick_cumulative := "-576701345305" |};
             {| block_timestamp := 1755188942; tick_cumulative := "-576731966831" |} ]).
  - reflexivity.
  - vm_compute. lia.
  - vm_compute. reflexivity.
Defined.

(** Two valid observations end up oldest first, whatever their order in
    the input. *)
Lemma sortedValid_pair (A B : Observation) :
  validObservation A = true -> validObservation B = true ->
  (A.(block_timestamp) <? B.(block_timestamp)) = true ->
  sortedValid [A; B] = [A; B] /\ sortedValid [B; A] = [A; B].
Proof.
  intros HA HB Hlt.
  rewrite (ltb_tkey _ _ HA HB) in Hlt. apply Z.ltb_lt in Hlt.
  unfold sortedValid. cbn [filter]. rewrite HA, HB. cbn [stableSort fold_right sortInsert].
  rewrite (byTimestamp_key B A HB HA), (byTimestamp_key A B HA HB).
  destruct (Z.ltb_spec (tkey (block_timestamp B)) (tkey (block_timestamp A))) as [ | _]; [lia | ].
  destruct (Z.ltb_spec (tkey (block_timestamp A)) (tkey (block_timestamp B))) as [_ | ]; [ | lia].
  split; reflexivity.
Qed.

(** [parseInt] on the decimal string of a non-zero integer is the Number
    of that integer. *)
Lemma parseInt_integerOf (s : string) (z : Z) :
  integerOf s = Some z -> z <> 0%Z -> parseInt s = ofZ z.
Proof.
  unfold integerOf, parseInt.
  destruct (parseIntExact s) as [[neg m] | ]; [ | discriminate].
  intros [= <-] Hz. destruct m as [ | m | m]; [destruct neg; cbn in Hz; lia | | ]; reflexivity.
Qed.

(** C1, as the code has it: on two observations A and B with positive
    timestamps, A before B, given in either order, both copies of the
    engine return a record whose [twapTick] is the binary64 quotient of
    [parseInt(B.tick_cumulative) - parseInt(A.tick_cumulative)] by
    [B.block_timestamp - A.block_timestamp]; the cumulative ticks are
    Numbers from [parseInt] on, and so is their difference.  When the
    cumulative ticks are integers [a] and [b] below [2^53] in magnitude,
    that difference is the integer [b - a] rounded once to the nearest
    Number, [ofZ (b - a)], and [twapTick] is its quotient by the time
    difference; the difference is [b - a] itself, nothing rounded away,
    as long as [b - a] is at most [2^53] in magnitude.  Beyond that it
    need not be (lemma [rounded_difference_below_2_53]). *)
Theorem C1_two_observations_twapTick (Math_pow : number -> number -> number)
    (poolState : PoolState) (observationState : ObservationState)
    (h : Heap Observation) (A B : Observation) :
  nth_error h (observations_data observationState) = Some [A; B]
  \/ nth_error h (observations_data observationState) = Some [B; A] ->
  gtb A.(block_timestamp) 0 = true ->
  gtb B.(block_timestamp) 0 = true ->
  (A.(block_timestamp) <? B.(block_timestamp)) = true ->
  let timeDiff := B.(block_timestamp) - A.(block_timestamp) in
  let asComputed (r : TwapResult) :=
    r.(twapTick)
    = (parseInt B.(tick_cumulative) - parseInt A.(tick_cumulative)) / timeDiff
    /\ forall a b : Z,
         parseInt A.(tick_cumulative) = ofZ a ->
         parseInt B.(tick_cumulative) = ofZ b ->
         (Z.abs a < 2 ^ 53)%Z -> (Z.abs b < 2 ^ 53)%Z ->
         parseInt B.(tick_cumulative) - parseInt A.(tick_cumulative) = ofZ (b - a)
         /\ r.(twapTick) = ofZ (b - a) / timeDiff
         /\ ((Z.abs (b - a) <= 2 ^ 53)%Z ->
             integerValue (parseInt B.(tick_cumulative) - parseInt A.(tick_cumulative))
             = Some (b - a)%Z) in
  (exists r h',
      calculateTWAP Math_pow poolState observationState h = (Normal r, h')
      /\ asComputed r)
  /\ (exists r h',
      calculateTWAPCLI Math_pow poolState observationState h = (Normal r, h')
      /\ asComputed r).
Proof.
  intros Hl HA HB Hlt timeDiff asComputed. rewrite calculateTWAPCLI_eq.
  destruct (sortedValid_pair A B HA HB Hlt) as [HAB HBA].
  assert (Hrun : exists h', calculateTWAP Math_pow poolState observationState h
                            = (twapOf Math_pow poolState [A; B], h')).
  { destruct Hl as [Hl | Hl];
      rewrite (calculateTWAP_run Math_pow poolState observationState h _ Hl);
      rewrite ?HAB, ?HBA; eexists; reflexivity. }
  destruct Hrun as [h' Hrun]. rewrite Hrun.
  assert (Has : forall r, twapOf Math_pow poolState [A; B] = Normal r -> asComputed r).
  { intros r [= <-]. subst asComputed. cbn [twapTick last]. split; [reflexivity | ].
    intros a b Ha Hb Hna Hnb. rewrite Ha, Hb, sub_ofZ by assumption.
    split; [reflexivity | ]. split; [reflexivity | ]. apply integerValue_ofZ. }
  split; eexists; exists h'; (split; [reflexivity | now apply Has]).
Qed.

Lemma C1_witness :
  let A := {| block_timestamp := 1755187080; tick_cumulative := "-576701345305" |} in
  let B := {| block_timestamp := 1755188942; tick_cumulative := "-576731966831" |} in
  let poolState := {| tick_current := -16520; mint_decimals_0 := 9; mint_decimals_1 := 6 |} in
  let asComputed (r : TwapResult) :=
    r.(twapTick)
    = (parseInt "-576731966831" - parseInt "-576701345305") / (1755188942 - 1755187080)
    /\ forall a b : Z,
         parseInt "-576701345305" = ofZ a ->
         parseInt "-576731966831" = ofZ b ->
         (Z.abs a < 2 ^ 53)%Z -> (Z.abs b < 2 ^ 53)%Z ->
         parseInt "-576731966831" - parseInt "-576701345305" = ofZ (b - a)
         /\ r.(twapTick) = ofZ (b - a) / (1755188942 - 1755187080)
         /\ ((Z.abs (b - a) <= 2 ^ 53)%Z ->
             integerValue (parseInt "-576731966831" - parseInt "-576701345305")
             = Some (b - a)%Z) in
  (exists r h',
      calculateTWAP examplePow poolState {| observations_data := 0%nat |} [[B; A]]
      = (Normal r, h') /\ asComputed r)
  /\ (exists r h',
      calculateTWAPCLI examplePow poolState {| observations_data := 0%nat |} [[B; A]]
      = (Normal r, h') /\ asComputed r).
Proof.
  apply (C1_two_observations_twapTick examplePow _ {| observations_data := 0%nat |} [[_; _]]
           {| block_timestamp := 1755187080; tick_cumulative := "-576701345305" |}
           {| block_timestamp := 1755188942; tick_cumulative := "-576731966831" |}).
  - right. reflexivity.
  - reflexivity.
  - reflexivity.
  - reflexivity.
Defined.

(** Why the bound on the difference: the cumulative ticks [-(2^53 - 1)]
    and [2] are both below [2^53] in magnitude, their difference
    [2^53 + 1] is not a Number, and the engine computes [2^53] and
    divides that by the three seconds: not the exact quotient
    [3002399751580331], which is a Number. *)
Lemma rounded_difference_below_2_53 (Math_pow : number -> number -> number)
    (poolState : PoolState) :
  let A := {| block_timestamp := 1; tick_cumulative := "-9007199254740991" |} in
  let B := {| block_timestamp := 4; tick_cumulative := "2" |} in
  parseInt A.(tick_cumulative) = ofZ (-9007199254740991)
  /\ parseInt B.(tick_cumulative) = ofZ 2
  /\ integerValue (parseInt B.(tick_cumulative) - parseInt A.(tick_cumulative))
     = Some 9007199254740992%Z
  /\ (2 - -9007199254740991 = 3 * 3002399751580331)%Z
  /\ exists r h',
       calculateTWAP Math_pow poolState {| observations_data := 0%nat |} [[A; B]]
       = (Normal r, h')
       /\ r.(twapTick) = 9007199254740992 / 3
       /\ (r.(twapTick) =? 3002399751580331) = false.
Proof.
  cbv zeta. repeat split; try (vm_compute; reflexivity).
  rewrite (calculateTWAP_run Math_pow poolState {| observations_data := 0%nat |}
             [[ {| block_timestamp := 1; tick_cumulative := "-9007199254740991" |};
                {| block_timestamp := 4; tick_cumulative := "2" |} ]]
             _ eq_refl).
  replace (sortedValid [ {| block_timestamp := 1; tick_cumulative := "-9007199254740991" |};
                         {| block_timestamp := 4; tick_cumulative := "2" |} ])
    with [ {| block_timestamp := 1; tick_cumulative := "-9007199254740991" |};
           {| block_timestamp := 4; tick_cumulative := "2" |} ]
    by (vm_compute; reflexivity).
  eexists. eexists. split; [reflexivity | split; vm_compute; reflexivity].
Qed.

(** The cumulative ticks of the counterexample to C1: [2^53 + 1] and
    [2^53 + 2], one second apart. *)
Lemma rounded_difference_example (Math_pow : number -> number -> number)
    (poolState : PoolState) :
  let A := {| block_timestamp := 1; tick_cumulative := "9007199254740993" |} in
  let B := {| block_timestamp := 2; tick_cumulative := "9007199254740994" |} in
  integerOf A.(tick_cumulative) = Some 9007199254740993%Z
  /\ integerOf B.(tick_cumulative) = Some 9007199254740994%Z
  /\ parseInt A.(tick_cumulative) = 9007199254740992
  /\ ofZ (9007199254740994 - 9007199254740993) / (2 - 1) = 1
  /\ exists r h',
       calculateTWAP Math_pow poolState {| observations_data := 0%nat |} [[A; B]]
       = (Normal r, h')
       /\ r.(twapTick) = 2.
Proof.
  cbv zeta. repeat split; try (vm_compute; reflexivity).
  rewrite (calculateTWAP_run Math_pow poolState {| observations_data := 0%nat |}
             [[ {| block_timestamp := 1; tick_cumulative := "9007199254740993" |};
                {| block_timestamp := 2; tick_cumulative := "9007199254740994" |} ]]
             _ eq_refl).
  replace (sortedValid [ {| block_timestamp := 1; tick_cumulative := "9007199254740993" |};
                         {| block_timestamp := 2; tick_cumulative := "9007199254740994" |} ])
    with [ {| block_timestamp := 1; tick_cumulative := "9007199254740993" |};
           {| block_timestamp := 2; tick_cumulative := "9007199254740994" |} ]
    by (vm_compute; reflexivity).
  eexists. eexists. split; [reflexivity | vm_compute; reflexivity].
Qed.

Lemma number_2_neq_1 : (2 : number) <> 1.
Proof.
  intros H. apply (f_equal (fun x => x =? 1)) in H. vm_compute in H. discriminate.
Qed.

(** C1 as stated fails: with the cumulative ticks [2^53 + 1] and
    [2^53 + 2] one second apart, the quotient of the exact integer
    difference is 1 and the engine returns 2. *)
Lemma C1_counterexample :
  ~ (forall (Math_pow : number -> number -> number) (poolState : PoolState)
            (observationState : ObservationState) (h : Heap Observation)
            (A B : Observation) (a b : Z),
       nth_error h (observations_data observationState) = Some [A; B] ->
       gtb A.(block_timestamp) 0 = true ->
       gtb B.(block_timestamp) 0 = true ->
       (A.(block_timestamp) <? B.(block_timestamp)) = true ->
       integerOf A.(tick_cumulative) = Some a ->
       integerOf B.(tick_cumulative) = Some b ->
       exists r h',
         calculateTWAP Math_pow poolState observationState h = (Normal r, h')
         /\ r.(twapTick) = ofZ (b - a) / (B.(block_timestamp) - A.(block_timestamp))).
Proof.
  intros claim.
  pose (poolState := {| tick_current := -16520; mint_decimals_0 := 9; mint_decimals_1 := 6 |}).
  destruct (claim examplePow poolState {| observations_data := 0%nat |}
              [[ {| block_timestamp := 1; tick_cumulative := "9007199254740993" |};
                 {| block_timestamp := 2; tick_cumulative := "9007199254740994" |} ]]
              _ _ 9007199254740993%Z 9007199254740994%Z
              eq_refl eq_refl eq_refl eq_refl eq_refl eq_refl)
    as (r & h' & Hrun & Htick).
  destruct (rounded_difference_example examplePow poolState)
    as (_ & _ & _ & Hexact & r' & h'' & Hrun' & Htick').
  cbv zeta in Hrun'. rewrite Hrun in Hrun'. injection Hrun' as -> _.
  cbn [block_timestamp] in Htick. rewrite Hexact, Htick' in Htick.
  exact (number_2_neq_1 Htick).
Qed.

(** C4, as the code has it: the engine returns the same completion (the
    same record, or the same error) on a list and on any permutation of
    it, provided that valid observations sharing a timestamp are equal
    records; the sort is stable and orders by timestamp only. *)
Theorem C4_permutation_invariance (Math_pow : number -> number -> number)
    (poolState : PoolState) (observationState : ObservationState)
    (h h' : Heap Observation) (l l' : list Observation) :
  nth_error h (observations_data observationState) = Some l ->
  nth_error h' (observations_data observationState) = Some l' ->
  Permutation l l' ->
  (forall a b, In a l -> In b l -> validObservation a = true ->
     a.(block_timestamp) = b.(block_timestamp) -> a = b) ->
  fst (calculateTWAP Math_pow poolState observationState h)
  = fst (calculateTWAP Math_pow poolState observationState h')
  /\ fst (calculateTWAPCLI Math_pow poolState observationState h)
     = fst (calculateTWAPCLI Math_pow poolState observationState h').
Proof.
  intros Hl Hl' Hp Hties. rewrite calculateTWAPCLI_eq.
  rewrite (calculateTWAP_run Math_pow poolState observationState h l Hl),
          (calculateTWAP_run Math_pow poolState observationState h' l' Hl').
  cbn [fst]. rewrite (sortedValid_perm l l' Hp Hties). now split.
Qed.

Lemma number_neq (x y : number) : (x =? x) = true -> (y =? x) = false -> x <> y.
Proof. intros Hx Hy <-. rewrite Hx in Hy. discriminate. Qed.

Lemma C4_witness :
  let A := {| block_timestamp := 1755187080; tick_cumulative := "-576701345305" |} in
  let B := {| block_timestamp := 1755188942; tick_cumulative := "-576731966831" |} in
  let poolState := {| tick_current := -16520; mint_decimals_0 := 9; mint_decimals_1 := 6 |} in
  let observationState := {| observations_data := 0%nat |} in
  fst (calculateTWAP examplePow poolState observationState [[A; B]])
  = fst (calculateTWAP examplePow poolState observationState [[B; A]])
  /\ fst (calculateTWAPCLI examplePow poolState observationState [[A; B]])
     = fst (calculateTWAPCLI examplePow poolState observationState [[B; A]]).
Proof.
  apply (C4_permutation_invariance examplePow _ {| observations_data := 0%nat |}
           [[_; _]] [[_; _]]
           [ {| block_timestamp := 1755187080; tick_cumulative := "-576701345305" |};
             {| block_timestamp := 1755188942; tick_cumulative := "-576731966831" |} ]
           [ {| block_timestamp := 1755188942; tick_cumulative := "-576731966831" |};
             {| block_timestamp := 1755187080; tick_cumulative := "-576701345305" |} ]).
  - reflexivity.
  - reflexivity.
  - apply perm_swap.
  - intros a b [<- | [<- | []]] [<- | [<- | []]] _ Heq; try reflexivity;
      cbn [block_timestamp] in Heq; exfalso; revert Heq; apply number_neq; reflexivity.
Defined.

(** C4 as stated fails: two valid observations share the oldest
    timestamp and differ in their cumulative tick; the stable sort keeps
    them in their input order, and the engine starts from whichever comes
    first ([twapTick] 200 on one order, 100 on the other). *)
Lemma C4_counterexample :
  ~ (forall (Math_pow : number -> number -> number) (poolState : PoolState)
            (observationState : ObservationState) (h h' : Heap Observation)
            (l l' : list Observation),
       nth_error h (observations_data observationState) = Some l ->
       nth_error h' (observations_data observationState) = Some l' ->
       (2 <= List.length (filter validObservation l))%nat ->
       Permutation l l' ->
       fst (calculateTWAP Math_pow poolState observationState h)
       = fst (calculateTWAP Math_pow poolState observationState h')).
Proof.
  intros claim.
  pose (poolState := {| tick_current := -16520; mint_decimals_0 := 9; mint_decimals_1 := 6 |}).
  pose (X := {| block_timestamp := 1; tick_cumulative := "0" |}).
  pose (Y := {| block_timestamp := 1; tick_cumulative := "100" |}).
  pose (Z := {| block_timestamp := 2; tick_cumulative := "200" |}).
  specialize (claim examplePow poolState {| observations_data := 0%nat |}
                [[X; Y; Z]] [[Y; X; Z]] [X; Y; Z] [Y; X; Z] eq_refl eq_refl).
  assert (Hlen : (2 <= List.length (filter validObservation [X; Y; Z]))%nat)
    by (vm_compute; lia).
  specialize (claim Hlen (perm_swap Y X [Z])).
  apply (f_equal (fun c => match c with
                           | Normal r => r.(twapTick) =? 200
                           | Throw _ => false
                           end)) in claim.
  vm_compute in claim. discriminate.
Qed.

(* ================================================================== *)
(** * Further properties of the scorer and the engine *)
(* ================================================================== *)

(** X1: the end-to-end scenario of the specification.  On the pool
    [{currentTick: -16520, decimals0: 9, decimals1: 6}] and the
    observations [(1755187080, -576701345305)] and
    [(1755188942, -576731966831)] the time difference is 1862 seconds,
    the cumulative tick difference is -30621526 and [twapTick] is their
    quotient, -16445.502685...; two observations are counted and the
    price is [1.0001 ^ twapTick * 10 ^ (6 - 9)]. *)
Theorem X1_end_to_end_scenario (Math_pow : number -> number -> number) :
  let poolState := {| tick_current := -16520; mint_decimals_0 := 9; mint_decimals_1 := 6 |} in
  let A := {| block_timestamp := 1755187080; tick_cumulative := "-576701345305" |} in
  let B := {| block_timestamp := 1755188942; tick_cumulative := "-576731966831" |} in
  B.(block_timestamp) - A.(block_timestamp) = 1862
  /\ parseInt B.(tick_cumulative) - parseInt A.(tick_cumulative) = ofZ (-30621526)
  /\ exists r h',
       calculateTWAP Math_pow poolState {| observations_data := 0%nat |} [[A; B]]
       = (Normal r, h')
       /\ r.(twapTick) = ofZ (-30621526) / 1862
       /\ r.(twapTick) = -16445.502685284639
       /\ r.(timePeriodHours) = 1862 / 3600
       /\ r.(observationCount) = 2%nat
       /\ r.(twapPrice) = Math_pow 1.0001 r.(twapTick) * Math_pow 10 (6 - 9).
Proof.
  cbv zeta. split; [vm_compute; reflexivity | ]. split; [vm_compute; reflexivity | ].
  rewrite (calculateTWAP_run Math_pow _ {| observations_data := 0%nat |}
             [[ {| block_timestamp := 1755187080; tick_cumulative := "-576701345305" |};
                {| block_timestamp := 1755188942; tick_cumulative := "-576731966831" |} ]]
             _ eq_refl).
  replace (sortedValid
             [ {| block_timestamp := 1755187080; tick_cumulative := "-576701345305" |};
               {| block_timestamp := 1755188942; tick_cumulative := "-576731966831" |} ])
    with [ {| block_timestamp := 1755187080; tick_cumulative := "-576701345305" |};
           {| block_timestamp := 1755188942; tick_cumulative := "-576731966831" |} ]
    by (vm_compute; reflexivity).
  eexists. eexists. split; [reflexivity | ].
  cbn [twapTick timePeriodHours observationCount twapPrice last block_timestamp
       tick_cumulative List.length mint_decimals_0 mint_decimals_1].
  repeat split; vm_compute; reflexivity.
Qed.

(** X2: NORMAL_MOVEMENT is the factor of a report on which no check
    fired: either the factors are exactly [NORMAL_MOVEMENT], with level
    LOW and no warning, or the factor list is not empty and does not
    contain NORMAL_MOVEMENT. *)
Theorem X2_normal_movement_alone (priceDiffPercent timePeriodHours : number)
    (observations : list Observation) :
  let report := detectManipulation priceDiffPercent timePeriodHours observations in
  (report.(factors) = [NORMAL_MOVEMENT] /\ report.(level) = LOW /\ report.(warning) = None)
  \/ (report.(factors) <> [] /\ ~ In NORMAL_MOVEMENT report.(factors)).
Proof.
  cbv zeta. scorer_cases priceDiffPercent timePeriodHours observations;
    first [ left; repeat split; reflexivity
          | right; split; [discriminate | cbn; intuition discriminate] ].
Qed.

(** X3: the level is CRITICAL exactly when the price difference is above
    50; TICK_SPIKE in the factors puts the level at HIGH or above, and
    each of RAPID_PRICE_CHANGE (which raises LOW only) and
    REPETITIVE_PATTERNS at MEDIUM or above: the level is only ever
    raised. *)
Theorem X3_level_only_raised (priceDiffPercent timePeriodHours : number)
    (observations : list Observation) :
  let report := detectManipulation priceDiffPercent timePeriodHours observations in
  (report.(level) = CRITICAL <-> gtb priceDiffPercent 50 = true)
  /\ (In RAPID_PRICE_CHANGE report.(factors) ->
      (levelRank MEDIUM <= levelRank report.(level))%nat)
  /\ (In TICK_SPIKE report.(factors) -> (levelRank HIGH <= levelRank report.(level))%nat)
  /\ (In REPETITIVE_PATTERNS report.(factors) ->
      (levelRank MEDIUM <= levelRank report.(level))%nat).
Proof.
  cbv zeta. scorer_cases priceDiffPercent timePeriodHours observations;
    repeat split; intros; cbn in *; try reflexivity; try lia; try congruence;
    intuition congruence.
Qed.

(** X4: the recommendations for CRITICAL always hold the do-not-trade
    item, those for LOW the normal-conditions item, and the item asking
    for more data follows whenever INSUFFICIENT_DATA is a factor. *)
Theorem X4_recommendations (riskLevel : RiskLevel) (factors : list Factor) :
  In "🚨 DO NOT TRADE - High manipulation risk"%string (getRecommendations CRITICAL factors)
  /\ In "✅ Normal market conditions"%string (getRecommendations LOW factors)
  /\ (includes factors INSUFFICIENT_DATA = true ->
      In "⏱️ Collect more historical data"%string (getRecommendations riskLevel factors)).
Proof.
  unfold getRecommendations. destruct (includes factors INSUFFICIENT_DATA).
  - repeat split; try (cbn; tauto). intros _. apply in_or_app. right. now left.
  - repeat split; try (cbn; tauto). discriminate.
Qed.

(** X5: the array the engine works on is the fresh array at the end of
    the store; it holds the valid observations, each once, in ascending
    order of timestamp, and a returned record counts them. *)
Theorem X5_sorted_valid_observations (Math_pow : number -> number -> number)
    (poolState : PoolState) (observationState : ObservationState)
    (h : Heap Observation) (l : list Observation) :
  nth_error h (observations_data observationState) = Some l ->
  exists s,
    snd (calculateTWAP Math_pow poolState observationState h) = h ++ [s]
    /\ Permutation s (filter validObservation l)
    /\ StronglySorted
         (fun a b => (b.(block_timestamp) <? a.(block_timestamp)) = false) s
    /\ forall r, fst (calculateTWAP Math_pow poolState observationState h) = Normal r ->
         r.(observationCount) = List.length (filter validObservation l).
Proof.
  intros Hl. exists (sortedValid l).
  rewrite (calculateTWAP_run Math_pow poolState observationState h l Hl). cbn [fst snd].
  split; [reflexivity | ]. split; [apply stableSort_perm | ]. split.
  - assert (Hv : Forall (fun o => validObservation o = true) (sortedValid l))
      by (apply Forall_forall; intros o Ho; now apply sortedValid_In in Ho).
    pose proof (sortedValid_sorted l) as Hs.
    induction Hs as [ | a s Hs IH Ha]; [constructor | ].
    inversion Hv as [ | ? ? Va Vs]; subst. constructor; [now apply IH | ].
    rewrite Forall_forall in Ha, Vs |- *. intros b Hb.
    rewrite (ltb_tkey _ _ (Vs b Hb) Va). apply Z.ltb_ge. now apply Ha.
  - intros r Hr. rewrite <- sortedValid_length. unfold twapOf in Hr.
    destruct (sortedValid l) as [ | x s]; [discriminate | ].
    destruct (List.length (x :: s) <? 2)%nat; [discriminate | ].
    now injection Hr as <-.
Qed.

Lemma X5_witness :
  let A := {| block_timestamp := 1755187080; tick_cumulative := "-576701345305" |} in
  let B := {| block_timestamp := 1755188942; tick_cumulative := "-576731966831" |} in
  let empty := {| block_timestamp := 0; tick_cumulative := "0" |} in
  let poolState := {| tick_current := -16520; mint_decimals_0 := 9; mint_decimals_1 := 6 |} in
  let observationState := {| observations_data := 0%nat |} in
  exists s,
    snd (calculateTWAP examplePow poolState observationState [[B; empty; A]])
    = [[B; empty; A]] ++ [s]
    /\ Permutation s (filter validObservation [B; empty; A])
    /\ StronglySorted
         (fun a b => (b.(block_timestamp) <? a.(block_timestamp)) = false) s
    /\ forall r,
         fst (calculateTWAP examplePow poolState observationState [[B; empty; A]]) = Normal r ->
         r.(observationCount) = List.length (filter validObservation [B; empty; A]).
Proof.
  apply (X5_sorted_valid_observations examplePow _ {| observations_data := 0%nat |} [[_; _; _]]).
  reflexivity.
Defined.

(** X6: with fewer than two valid observations the engine never returns
    a record: it throws, its own error when one observation is valid and
    the TypeError of the log line when none is. *)
Theorem X6_fewer_than_two_valid_throws (Math_pow : number -> number -> number)
    (poolState : PoolState) (observationState : ObservationState)
    (h : Heap Observation) (l : list Observation) :
  nth_error h (observations_data observationState) = Some l ->
  (List.length (filter validObservation l) < 2)%nat ->
  exists e,
    fst (calculateTWAP Math_pow poolState observationState h) = Throw e
    /\ (List.length (filter validObservation l) = 1%nat -> e = insufficientData)
    /\ (List.length (filter validObservation l) = 0%nat ->
        e = TypeError "Cannot read properties of undefined").
Proof.
  intros Hl Hlen. rewrite (calculateTWAP_run Math_pow poolState observationState h l Hl).
  rewrite <- sortedValid_length in *. cbn [fst].
  destruct (sortedValid l) as [ | x [ | y s]]; cbn [List.length] in *; try lia.
  - eexists. split; [reflexivity | ]. split; [discriminate | reflexivity].
  - eexists. split; [reflexivity | ]. split; [reflexivity | discriminate].
Qed.

Lemma X6_witness :
  exists e,
    fst (calculateTWAP examplePow
           {| tick_current := -16520; mint_decimals_0 := 9; mint_decimals_1 := 6 |}
           {| observations_data := 0%nat |}
           [[ {| block_timestamp := 1755187080; tick_cumulative := "-576701345305" |};
              {| block_timestamp := 0; tick_cumulative := "0" |} ]])
    = Throw e
    /\ (List.length
          (filter validObservation
             [ {| block_timestamp := 1755187080; tick_cumulative := "-576701345305" |};
               {| block_timestamp := 0; tick_cumulative := "0" |} ]) = 1%nat ->
        e = insufficientData)
    /\ (List.length
          (filter validObservation
             [ {| block_timestamp := 1755187080; tick_cumulative := "-576701345305" |};
               {| block_timestamp := 0; tick_cumulative := "0" |} ]) = 0%nat ->
        e = TypeError "Cannot read properties of undefined").
Proof.
  apply (X6_fewer_than_two_valid_throws examplePow _ {| observations_data := 0%nat |} [[_; _]]).
  - reflexivity.
  - vm_compute. lia.
Defined.

(* ================================================================== *)
(** * The validation of parsed JSON *)
(* ================================================================== *)

Section ValidationFacts.
Variable host : Host.t.

Lemma getProp_not_nullish (v : Value) (k : string) :
  isNullish v = false -> getProp v k = Normal (propOf v k).
Proof. unfold propOf. destruct v; cbn; try discriminate; reflexivity. Qed.

Lemma getProp_nullish (v : Value) (k : string) :
  isNullish v = true -> getProp v k = Throw (readError v).
Proof. destruct v; cbn; try discriminate; reflexivity. Qed.

Lemma truthy_not_nullish (v : Value) : truthy v = true -> isNullish v = false.
Proof. destruct v; cbn; try discriminate; reflexivity. Qed.

Lemma validatePoolState_loop_find (poolState : Value) (fields : list string) :
  isNullish poolState = false ->
  validatePoolState_loop poolState fields
  = match find (fun field => negb (fieldPresent poolState field)) fields with
    | Some field => Throw (missingField field)
    | None => Normal true
    end.
Proof.
  intros Hp. induction fields as [ | field rest IH]; cbn [validatePoolState_loop find].
  - reflexivity.
  - rewrite (getProp_not_nullish poolState field Hp). cbn [bindC]. unfold fieldPresent.
    destruct (truthy (propOf poolState field)) eqn:Ht; cbn [negb andb]; [ | reflexivity].
    rewrite (getProp_not_nullish _ "data" (truthy_not_nullish _ Ht)). cbn [bindC].
    destruct (isUndefined (propOf (propOf poolState field) "data")); cbn [negb];
      [reflexivity | exact IH].
Qed.

(** X7: [validatePoolState] checks presence only.  On [null] or
    [undefined] it throws the TypeError of the first property read; on
    any other value it throws the error naming the first of
    [tick_current], [mint_decimals_0], [mint_decimals_1] whose entry is
    falsy or has no [data], and returns [true] when there is none; the
    type of [data] is never looked at, so an entry [{data: null}] passes. *)
Theorem X7_validatePoolState_presence_only (poolState : Value) :
  (isNullish poolState = true ->
     validatePoolState poolState = Throw (readError poolState))
  /\ (isNullish poolState = false ->
     validatePoolState poolState
     = match find (fun field => negb (fieldPresent poolState field)) required with
       | Some field => Throw (missingField field)
       | None => Normal true
       end)
  /\ (forall tick decimals0 decimals1 : Value,
        isUndefined tick = false -> isUndefined decimals0 = false ->
        isUndefined decimals1 = false ->
        validatePoolState
          (VObject [ ("tick_current", VObject [("data", tick)]);
                     ("mint_decimals_0", VObject [("data", decimals0)]);
                     ("mint_decimals_1", VObject [("data", decimals1)]) ]%string)
        = Normal true).
Proof.
  split; [ | split].
  - intros Hn. unfold validatePoolState, required. cbn [validatePoolState_loop].
    now rewrite (getProp_nullish poolState _ Hn).
  - intros Hn. now apply validatePoolState_loop_find.
  - intros tick decimals0 decimals1 H0 H1 H2.
    unfold validatePoolState, required. cbn. rewrite H0, H1, H2. reflexivity.
Qed.




End ValidationFacts.

(* ================================================================== *)
(** * Validation, then the engine *)
(* ================================================================== *)

Section PipelineFacts.
Variable host : Host.t.








End PipelineFacts.


(* ================================================================== *)
(** * The command line *)
(* ================================================================== *)

(** Induction on a list two elements at a time, as the loop of
    [parseArguments] consumes a flag and its value. *)
Lemma list_pair_ind {A} (P : list A -> Prop) :
  P [] -> (forall a, P [a]) ->
  (forall a b l, P l -> P (b :: l) -> P (a :: b :: l)) ->
  forall l, P l.
Proof.
  intros H0 H1 H2 l. enough (P l /\ forall a, P (a :: l)) by tauto.
  induction l as [ | b l [IH IH']].
  - split; [exact H0 | exact H1].
  - split; [apply IH' | ]. intros a. apply H2; [exact IH | apply IH'].
Qed.

Ltac flag_cases arg :=
  destruct (String.eqb arg "--pool-file");
  [ | destruct (String.eqb arg "--obs-file");
      [ | destruct (String.eqb arg "--pool-json");
          [ | destruct (String.eqb arg "--obs-json");
              [ | destruct (String.eqb arg "--interactive" || String.eqb arg "-i") ] ] ] ].


(** Every key the loop sets stays set; an argument list that is not
    empty and is accepted has set one. *)
Lemma parseArguments_loop_keys (args : list string) :
  forall options options',
    parseArguments_loop args options = Done options' ->
    (keysLength options <= keysLength options')%nat
    /\ (args <> [] -> (0 < keysLength options')%nat).
Proof.
  induction args as [ | a | a b l IH IH'] using list_pair_ind; intros options options';
    cbn [parseArguments_loop hd_error].
  - intros [= <-]. split; [lia | congruence].
  - flag_cases a; try discriminate; intros [= <-]; unfold keysLength;
      cbn [poolFile obsFile poolJson obsJson interactive slotCount];
      destruct (poolFile options), (obsFile options), (poolJson options), (obsJson options),
               (interactive options); cbn [slotCount]; split; intros; lia.
  - flag_cases a; try discriminate; intros H;
      first [apply IH in H | apply IH' in H]; destruct H as [Hle Hpos];
      revert Hle; unfold keysLength;
      cbn [poolFile obsFile poolJson obsJson interactive slotCount];
      destruct (poolFile options), (obsFile options), (poolJson options), (obsJson options),
               (interactive options); cbn [slotCount]; split; intros; lia.
Qed.

Section ProcessFacts.
Variable host : Host.t.







(** X11: what [parseArguments] accepts.  An argument list whose first
    argument is none of the six flags ends the process with status 1
    ([--help] is such an argument); the argument after a flag that takes
    a value is never examined; and the options of an accepted list have
    no key only when there was no argument at all. *)
Theorem X11_parseArguments_options (args : list string) :
  (forall arg rest,
     args = arg :: rest -> ~ In arg knownFlags -> parseArguments args = Exit 1)
  /\ (forall flag value rest,
        args = flag :: value :: rest ->
        In flag ["--pool-file"; "--obs-file"; "--pool-json"; "--obs-json"]%string ->
        forall value', parseArguments (flag :: value' :: rest) = Exit 1
                       <-> parseArguments args = Exit 1)
  /\ (forall options,
        parseArguments args = Done options ->
        (keysLength options = 0%nat <-> args = [])).
Proof.
  split; [ | split].
  - intros arg rest -> Hin. unfold parseArguments. cbn [parseArguments_loop].
    unfold knownFlags in Hin. cbn [In] in Hin.
    destruct (String.eqb_spec arg "--pool-file"); [exfalso; apply Hin; subst; auto 10 | ].
    destruct (String.eqb_spec arg "--obs-file"); [exfalso; apply Hin; subst; auto 10 | ].
    destruct (String.eqb_spec arg "--pool-json"); [exfalso; apply Hin; subst; auto 10 | ].
    destruct (String.eqb_spec arg "--obs-json"); [exfalso; apply Hin; subst; auto 10 | ].
    destruct (String.eqb_spec arg "--interactive"); [exfalso; apply Hin; subst; auto 10 | ].
    destruct (String.eqb_spec arg "-i"); [exfalso; apply Hin; subst; auto 10 | ]. reflexivity.
  - intros flag value rest -> Hin value'. cbn [In] in Hin.
    assert (Hstatus : forall o1 o2,
               parseArguments_loop rest o1 = Exit 1 <-> parseArguments_loop rest o2 = Exit 1).
    { clear. induction rest as [ | a | a b l IH IH'] using list_pair_ind; intros o1 o2;
        cbn [parseArguments_loop hd_error].
      - split; discriminate.
      - flag_cases a; split; intros H; try discriminate H; reflexivity.
      - flag_cases a; try apply IH; try apply IH'. tauto. }
    unfold parseArguments.
    destruct Hin as [<- | [<- | [<- | [<- | []]]]]; cbn [parseArguments_loop String.eqb
      Ascii.eqb Bool.eqb hd_error]; apply Hstatus.
  - intros options Hdone. unfold parseArguments in Hdone.
    destruct (parseArguments_loop_keys args _ _ Hdone) as [_ Hpos]. split.
    + intros Hzero. destruct args; [reflexivity | ].
      assert (0 < keysLength options)%nat by (apply Hpos; discriminate). lia.
    + intros ->. cbn in Hdone. now injection Hdone as <-.
Qed.

(** X12: arguments that name neither both files nor both JSON texts, and
    do not ask for the interactive mode, end the process with status 1,
    on every host and whatever would be answered. *)
Theorem X12_main_incomplete_sources (args : list string) (poolInput obsInput : string)
    (options : Options) :
  parseArguments args = Done options ->
  args <> [] ->
  interactive options = false ->
  slotTruthy (poolFile options) && slotTruthy (obsFile options) = false ->
  slotTruthy (poolJson options) && slotTruthy (obsJson options) = false ->
  main host args poolInput obsInput = Exit 1.
Proof.
  intros Hargs Hne Hi Hfiles Hjson. unfold main. rewrite Hargs. cbn [bindP].
  unfold loadData. rewrite Hfiles, Hjson, Hi. cbn [orb].
  unfold parseArguments in Hargs.
  destruct (parseArguments_loop_keys args _ _ Hargs) as [_ Hpos].
  specialize (Hpos Hne). destruct (Nat.eqb_spec (keysLength options) 0); [lia | reflexivity].
Qed.

End ProcessFacts.

(** A pool file with inline observations is not a pair of sources: the
    process ends, also with a host on which the file exists. *)
Lemma X12_witness :
  main exampleHost ["--pool-file"; "pool.json"; "--obs-json"; "observations document"]%string
    EmptyString EmptyString
  = Exit 1.
Proof.
  apply (X12_main_incomplete_sources exampleHost
           ["--pool-file"; "pool.json"; "--obs-json"; "observations document"]%string
           EmptyString EmptyString
           {| poolFile := Present (Some "pool.json"%string); obsFile := Absent;
              poolJson := Absent; obsJson := Present (Some "observations document"%string);
              interactive := false |}).
  - reflexivity.
  - discriminate.
  - reflexivity.
  - reflexivity.
  - reflexivity.
Defined.

Section DisplayFacts.
Variable host : Host.t.


End DisplayFacts.


(* ================================================================== *)
(** * The engine and the scorer on every input *)
(* ================================================================== *)

Lemma filter_idempotent {A} (f : A -> bool) (l : list A) :
  filter f (filter f l) = filter f l.
Proof.
  induction l as [ | x l IH]; cbn [filter]; [reflexivity | ].
  destruct (f x) eqn:Hx; cbn [filter]; [rewrite Hx; now f_equal | exact IH].
Qed.

(** X14: the observations that fail the timestamp test play no part.
    Two arrays with the same valid observations in the same order get
    the same answer from the engine, record or error, whatever else they
    hold and wherever. *)
Theorem X14_invalid_observations_ignored (Math_pow : number -> number -> number)
    (poolState : PoolState) (observationState : ObservationState)
    (h h' : Heap Observation) (l l' : list Observation) :
  nth_error h (observations_data observationState) = Some l ->
  nth_error h' (observations_data observationState) = Some l' ->
  filter validObservation l = filter validObservation l' ->
  fst (calculateTWAP Math_pow poolState observationState h)
  = fst (calculateTWAP Math_pow poolState observationState h')
  /\ fst (calculateTWAPCLI Math_pow poolState observationState h)
     = fst (calculateTWAPCLI Math_pow poolState observationState h').
Proof.
  intros Hl Hl' Hvalid. rewrite calculateTWAPCLI_eq.
  rewrite (calculateTWAP_run Math_pow poolState observationState h l Hl),
          (calculateTWAP_run Math_pow poolState observationState h' l' Hl').
  cbn [fst]. unfold sortedValid. rewrite Hvalid. now split.
Qed.

Lemma X14_witness :
  let A := {| block_timestamp := 1755187080; tick_cumulative := "-576701345305" |} in
  let B := {| block_timestamp := 1755188942; tick_cumulative := "-576731966831" |} in
  let empty := {| block_timestamp := 0; tick_cumulative := "12345" |} in
  let unset := {| block_timestamp := nan; tick_cumulative := "undefined" |} in
  let poolState := {| tick_current := -16520; mint_decimals_0 := 9; mint_decimals_1 := 6 |} in
  let observationState := {| observations_data := 0%nat |} in
  fst (calculateTWAP examplePow poolState observationState [[empty; B; unset; A; empty]])
  = fst (calculateTWAP examplePow poolState observationState [[B; A]])
  /\ fst (calculateTWAPCLI examplePow poolState observationState [[empty; B; unset; A; empty]])
     = fst (calculateTWAPCLI examplePow poolState observationState [[B; A]]).
Proof.
  apply (X14_invalid_observations_ignored examplePow _ {| observations_data := 0%nat |}
           [[_; _; _; _; _]] [[_; _]] _ _ eq_refl eq_refl).
  reflexivity.
Defined.

(** A rounded quotient of non-negative numbers is not negative. *)
Lemma binary_round_aux_not_negative (m e : Z) (l : location) :
  SFltb (binary_round_aux prec emax false m e l) (S754_zero false) = false.
Proof.
  unfold binary_round_aux.
  destruct (shr_fexp prec emax m e l) as [mrs' e'].
  destruct (shr_fexp prec emax _ e' loc_Exact) as [mrs'' e''].
  destruct (shr_m mrs''); [reflexivity | | reflexivity].
  destruct (e'' <=? emax - prec)%Z; reflexivity.
Qed.

Lemma div_3600_not_negative (x : number) :
  (x <? 0) = false -> (x / 3600 <? 0) = false.
Proof.
  rewrite !ltb_spec, div_spec.
  change (Prim2SF 0) with (S754_zero false).
  replace (Prim2SF 3600) with (S754_finite false 7916483719987200 (-41))
    by (vm_compute; reflexivity).
  destruct (Prim2SF x) as [s | [ | ] | | [ | ] m e]; intros H;
    try discriminate H; try (destruct s; reflexivity); try reflexivity.
  unfold SF64div, SFdiv.
  destruct (SFdiv_core_binary prec emax (Z.pos m) e 7916483719987200 (-41)) as [[mz ez] lz].
  apply binary_round_aux_not_negative.
Qed.

Lemma In_last {A} (s : list A) : forall y d, In (last (y :: s) d) (y :: s).
Proof.
  induction s as [ | z s IH]; intros y d; [now left | ].
  right. change (last (y :: z :: s) d) with (last (z :: s) d). apply IH.
Qed.

Lemma sorted_first_last (s : list Observation) (x : Observation) :
  StronglySorted
    (fun a b => (tkey a.(block_timestamp) <= tkey b.(block_timestamp))%Z) (x :: s) ->
  (tkey x.(block_timestamp) <= tkey (last (x :: s) x).(block_timestamp))%Z.
Proof.
  intros Hs. apply StronglySorted_inv in Hs as [_ Hx]. rewrite Forall_forall in Hx.
  destruct s as [ | y s]; [cbn; lia | ].
  apply Hx. change (last (x :: y :: s) x) with (last (y :: s) x). apply In_last.
Qed.

(** X15: a record the engine returns is built from two valid
    observations at least, and its time period is not negative: the
    sort puts the oldest timestamp first.  (It is zero or NaN when the
    oldest and the newest timestamps are equal.) *)
Theorem X15_time_period_not_negative (Math_pow : number -> number -> number)
    (poolState : PoolState) (observationState : ObservationState)
    (h : Heap Observation) (r : TwapResult) :
  fst (calculateTWAP Math_pow poolState observationState h) = Normal r
  \/ fst (calculateTWAPCLI Math_pow poolState observationState h) = Normal r ->
  (r.(timePeriodHours) <? 0) = false
  /\ (2 <= r.(observationCount))%nat
  /\ includes r.(manipulationAnalysis).(factors) INSUFFICIENT_DATA
     = (r.(timePeriodHours) <? 0.1).
Proof.
  rewrite calculateTWAPCLI_eq. intros Hr. assert (Hr' := or_ind (fun H => H) (fun H => H) Hr).
  clear Hr. rename Hr' into Hr.
  destruct (nth_error h (observations_data observationState)) as [l | ] eqn:Hl.
  2: { rewrite (calculateTWAP_no_array Math_pow poolState observationState h Hl) in Hr.
       discriminate. }
  rewrite (calculateTWAP_run Math_pow poolState observationState h l Hl) in Hr.
  cbn [fst] in Hr.
  pose proof (sortedValid_sorted l) as Hs.
  assert (Hv : forall o, In o (sortedValid l) -> validObservation o = true)
    by (intros o Ho; now apply sortedValid_In in Ho).
  unfold twapOf in Hr. destruct (sortedValid l) as [ | x s] eqn:Hsv; [discriminate | ].
  destruct (Nat.ltb_spec (List.length (x :: s)) 2) as [ | Hlen]; [discriminate | ].
  injection Hr as <-. cbv zeta. cbn [timePeriodHours observationCount manipulationAnalysis].
  split; [ | split; [exact Hlen | ]].
  - apply div_3600_not_negative.
    assert (Hx : validObservation x = true) by (apply Hv; now left).
    assert (Hlast : validObservation (last (x :: s) x) = true).
    { apply Hv. apply In_last. }
    change (match s with [] => x | _ :: _ => last s x end) with (last (x :: s) x).
    rewrite (sub_ltb0 _ _ Hlast Hx). apply Z.ltb_ge. now apply sorted_first_last.
  - set (p := Math_abs _). set (t := _ / 3600).
    scorer_cases p t (x :: s); reflexivity.
Qed.

Lemma X15_witness :
  exists r,
    fst (calculateTWAP examplePow
           {| tick_current := -16520; mint_decimals_0 := 9; mint_decimals_1 := 6 |}
           {| observations_data := 0%nat |}
           [[ {| block_timestamp := 1755188942; tick_cumulative := "-576731966831" |};
              {| block_timestamp := 1755187080; tick_cumulative := "-576701345305" |} ]])
    = Normal r
    /\ (r.(timePeriodHours) <? 0) = false
    /\ (2 <= r.(observationCount))%nat
    /\ includes r.(manipulationAnalysis).(factors) INSUFFICIENT_DATA
       = (r.(timePeriodHours) <? 0.1).
Proof.
  assert (H : exists r,
             fst (calculateTWAP examplePow
                    {| tick_current := -16520; mint_decimals_0 := 9; mint_decimals_1 := 6 |}
                    {| observations_data := 0%nat |}
                    [[ {| block_timestamp := 1755188942; tick_cumulative := "-576731966831" |};
                       {| block_timestamp := 1755187080;
                          tick_cumulative := "-576701345305" |} ]])
             = Normal r)
    by (eexists; vm_compute; reflexivity).
  destruct H as [r Hr]. exists r. split; [exact Hr | ].
  apply (X15_time_period_not_negative examplePow
           {| tick_current := -16520; mint_decimals_0 := 9; mint_decimals_1 := 6 |}
           {| observations_data := 0%nat |}
           [[ {| block_timestamp := 1755188942; tick_cumulative := "-576731966831" |};
              {| block_timestamp := 1755187080; tick_cumulative := "-576701345305" |} ]] r).
  left. exact Hr.
Defined.

(** X16: the factors of a report come in the order of the checks, each
    at most once, and with at most one of the three price-difference
    factors; a report has between one and five factors. *)
Theorem X16_factors_in_check_order (priceDiffPercent timePeriodHours : number)
    (observations : list Observation) :
  let report := detectManipulation priceDiffPercent timePeriodHours observations in
  StronglySorted (fun a b => (factorRank a < factorRank b)%nat) report.(factors)
  /\ NoDup report.(factors)
  /\ (1 <= List.length report.(factors) <= 5)%nat.
Proof.
  cbv zeta. scorer_cases priceDiffPercent timePeriodHours observations;
    (split; [ | split]);
    try (repeat constructor; cbn; lia);
    try (repeat constructor; cbn; intuition discriminate);
    try (cbn; lia).
Qed.

Lemma repetitivePatterns_factor (priceDiffPercent timePeriodHours : number)
    (observations : list Observation) :
  In REPETITIVE_PATTERNS
     (detectManipulation priceDiffPercent timePeriodHours observations).(factors)
  <-> repetitivePatterns observations = true.
Proof.
  scorer_cases priceDiffPercent timePeriodHours observations;
    cbn; split; intros H; try discriminate H; try reflexivity; intuition discriminate.
Qed.

(** With one, two or three observations the set of deltas has no, one,
    and one or two elements. *)
Lemma repetitivePatterns_short (observations : list Observation) :
  (List.length observations = 1%nat -> repetitivePatterns observations = true)
  /\ ((List.length observations = 0 \/ List.length observations = 2
       \/ List.length observations = 3)%nat ->
      repetitivePatterns observations = false).
Proof.
  unfold repetitivePatterns, uniqueRatiosOf.
  destruct observations as [ | a [ | b [ | c [ | d l]]]]; cbn [List.length];
    (split; [intros H | intros [H | [H | H]]]); try discriminate H;
    cbn [map consecutive fold_left Set_add existsb app orb].
  - reflexivity.
  - vm_compute. reflexivity.
  - vm_compute. reflexivity.
  - unfold Set_add. cbn [existsb].
    match goal with
    | |- context [if ?c then _ else _] => destruct c
    end; vm_compute; reflexivity.
Qed.

(** X17: the check for repetitive patterns compares the number of
    distinct deltas with three tenths of the number of observations, so
    it cannot fire on two or three observations (nor on none), and always
    fires on a single one.  The engine passes two observations at least:
    a record it returns on fewer than four valid observations never has
    the factor REPETITIVE_PATTERNS. *)
Theorem X17_repetitive_patterns_need_four (Math_pow : number -> number -> number)
    (poolState : PoolState) (observationState : ObservationState)
    (h : Heap Observation) (priceDiffPercent timePeriodHours : number)
    (observations : list Observation) :
  let report := detectManipulation priceDiffPercent timePeriodHours observations in
  (List.length observations = 1%nat -> In REPETITIVE_PATTERNS report.(factors))
  /\ ((List.length observations = 0 \/ List.length observations = 2
       \/ List.length observations = 3)%nat ->
      ~ In REPETITIVE_PATTERNS report.(factors))
  /\ (forall r,
        fst (calculateTWAP Math_pow poolState observationState h) = Normal r
        \/ fst (calculateTWAPCLI Math_pow poolState observationState h) = Normal r ->
        (r.(observationCount) < 4)%nat ->
        ~ In REPETITIVE_PATTERNS r.(manipulationAnalysis).(factors)).
Proof.
  cbv zeta. split; [ | split].
  - intros H. apply repetitivePatterns_factor. now apply repetitivePatterns_short.
  - intros H Hin. apply repetitivePatterns_factor in Hin.
    destruct (repetitivePatterns_short observations) as [_ Hshort].
    rewrite (Hshort H) in Hin. discriminate.
  - intros r Hr Hcount Hin. rewrite calculateTWAPCLI_eq in Hr.
    assert (Hr' := or_ind (fun H => H) (fun H => H) Hr). clear Hr.
    destruct (nth_error h (observations_data observationState)) as [l | ] eqn:Hl.
    2: { rewrite (calculateTWAP_no_array Math_pow poolState observationState h Hl) in Hr'.
         discriminate. }
    rewrite (calculateTWAP_run Math_pow poolState observationState h l Hl) in Hr'.
    cbn [fst] in Hr'. unfold twapOf in Hr'.
    destruct (sortedValid l) as [ | x s]; [discriminate | ].
    destruct (Nat.ltb_spec (List.length (x :: s)) 2) as [ | Hlen]; [discriminate | ].
    injection Hr' as <-. cbv zeta in Hin, Hcount.
    cbn [observationCount manipulationAnalysis] in Hin, Hcount.
    apply repetitivePatterns_factor in Hin.
    destruct (repetitivePatterns_short (x :: s)) as [_ Hshort].
    cbn [List.length] in Hlen, Hshort. rewrite Hshort in Hin by lia. discriminate.
Qed.
